(** * A/B/n variant resolver of cms-utils: model and properties

    Shallow embedding of [src/abn-resolver.utils.js].

    - JavaScript numbers are IEEE 754 binary64 values: they are modelled by
      Rocq's primitive floats, whose [+], [/] and [<?] are the same
      round-to-nearest operations.
    - JavaScript data is modelled by the tree type [value] (primitives,
      arrays, records with ordered keys).
    - A [throw] is the [Throw] outcome of [result]; the in-place mutation of
      [resolveBlogPostVariant] is explicit state passing on the content
      record. *)

From Stdlib Require Import List String Bool Arith ZArith Lia Floats DecimalString.
Import ListNotations.

Set Implicit Arguments.

Open Scope string_scope.
Open Scope list_scope.

(** ** Outcomes: normal completion or a thrown error *)

Inductive error : Type :=
| Error (message : string)       (* [throw new Error(message)] *)
| TypeError (message : string).  (* raised by the host: [null.k], [undefined.k],
                                    or a conversion that finds no primitive *)

Inductive result (A : Type) : Type :=
| Ok (a : A)
| Throw (e : error).

Arguments Ok {A} a.
Arguments Throw {A} e.

Definition bind {A B : Type} (m : result A) (k : A -> result B) : result B :=
  match m with
  | Ok a => k a
  | Throw e => Throw e
  end.

Notation "x <- m ;; k" := (bind m (fun x => k))
  (at level 61, m at next level, right associativity).

(** [xs.map(f)] where [f] may throw: the first throw aborts the whole map. *)
Definition mapM {A B : Type} (f : A -> result B) : list A -> result (list B) :=
  fix go (xs : list A) : result (list B) :=
    match xs with
    | [] => Ok []
    | x :: rest =>
        match f x with
        | Throw e => Throw e
        | Ok y => match go rest with
                  | Throw e => Throw e
                  | Ok ys => Ok (y :: ys)
                  end
        end
    end.

(** [xs.find(p)] where the predicate may throw. *)
Definition findM {A : Type} (p : A -> result bool) : list A -> result (option A) :=
  fix go (xs : list A) : result (option A) :=
    match xs with
    | [] => Ok None
    | x :: rest =>
        match p x with
        | Throw e => Throw e
        | Ok true => Ok (Some x)
        | Ok false => go rest
        end
    end.

(** ** The weighted variant selector *)

(** The structural type [{ id, weight: number }] that [selectVariant] reads
    from each element of [variants]. *)
Class VariantLike (V Id : Type) : Type := {
  id : V -> Id;
  weight : V -> float
}.

(** [{ id: string, weight: number }], the object built by the coercing callers. *)
Record VariantConfig : Type := mkConfig {
  config_id : string;
  config_weight : float
}.

#[export] Instance VariantConfig_like : VariantLike VariantConfig string :=
  {| id := config_id; weight := config_weight |}.

Definition empty_variants_error : error :=
  Error "selectVariant: variants array must not be empty".

Section Selector.

Context {V Id : Type} `{VariantLike V Id}.

(** [variants.reduce((sum, v) => sum + v.weight, 0)] *)
Definition totalWeight (variants : list V) : float :=
  fold_left (fun sum v => (sum + weight v)%float) variants 0%float.

(** The [for ... of] loop of [selectVariant], from the running value of
    [cumulative]; [None] when the loop runs to its end without returning. *)
Fixpoint selectLoop (bucket total cumulative : float) (variants : list V) : option Id :=
  match variants with
  | [] => None
  | variant :: rest =>
      let cumulative := (cumulative + weight variant / total)%float in
      if (bucket <? cumulative)%float then Some (id variant)
      else selectLoop bucket total cumulative rest
  end.

Definition selectVariant (bucket : float) (variants : list V) : result Id :=
  if Nat.eqb (List.length variants) 0 then Throw empty_variants_error
  else
    let total := totalWeight variants in
    match selectLoop bucket total 0%float variants with
    | Some chosen => Ok chosen
    | None =>
        (* variants[variants.length - 1].id *)
        match nth_error variants (List.length variants - 1) with
        | Some v => Ok (id v)
        | None => Throw (TypeError "Cannot read properties of undefined (reading 'id')")
        end
    end.

End Selector.

(** *** The selector as the specification words it *)

Section SelectorSpec.

Context {V Id : Type} `{VariantLike V Id}.

(** The running sum the loop keeps in [cumulative], over a prefix of the
    list. *)
Definition runningSum (total : float) (prefix : list V) : float :=
  fold_left (fun c v => (c + weight v / total)%float) prefix 0%float.

(** Cumulative normalized weight of the variant at position [k]: the running
    sum of [weight / totalWeight] over the variants up to and including it. *)
Definition cumulativeUpTo (variants : list V) (k : nat) : float :=
  runningSum (totalWeight variants) (firstn (S k) variants).


End SelectorSpec.

(** The variant list with every weight multiplied by the constant [c]. *)
Definition scaleWeights (c : float) (variants : list VariantConfig) : list VariantConfig :=
  map (fun v => mkConfig (config_id v) (config_weight v * c)%float) variants.

(** ** JavaScript data *)

Inductive prim : Type :=
| PUndefined
| PNull
| PBool (b : bool)
| PNum (n : float)
| PStr (s : string).

#[local] Set Warnings "-register-all".

(** JSON-like data: primitives, arrays, and records whose keys keep their
    insertion order. *)
Inductive value : Type :=
| VPrim (p : prim)
| VArr (items : list value)
| VObj (fields : list (string * value)).

Abbreviation VUndefined := (VPrim PUndefined).
Abbreviation VNull := (VPrim PNull).
Abbreviation VBool b := (VPrim (PBool b)).
Abbreviation VNum n := (VPrim (PNum n)).
Abbreviation VStr s := (VPrim (PStr s)).

(** The own properties of a record. *)
Definition obj : Type := list (string * value).

Fixpoint lookup (k : string) (o : obj) : option value :=
  match o with
  | [] => None
  | (k', v) :: rest => if String.eqb k' k then Some v else lookup k rest
  end.

(** [o.k] on a record: a missing key reads as [undefined]. *)
Definition field (k : string) (o : obj) : value :=
  match lookup k o with
  | Some v => v
  | None => VUndefined
  end.

Definition hasKey (k : string) (o : obj) : bool :=
  match lookup k o with
  | Some _ => true
  | None => false
  end.

(** [o.k = v]: an existing key keeps its position, a new key goes last. *)
Fixpoint set (k : string) (v : value) (o : obj) : obj :=
  match o with
  | [] => [(k, v)]
  | (k', v') :: rest =>
      if String.eqb k' k then (k, v) :: rest else (k', v') :: set k v rest
  end.

(** [delete o.k] *)
Definition delete (k : string) (o : obj) : obj :=
  filter (fun kv => negb (String.eqb (fst kv) k)) o.

(** [x.k] on an arbitrary value, for the keys this module reads ([id],
    [weight], [blocks]): reading from [null] or [undefined] raises a
    TypeError, primitives and arrays carry none of these keys. *)
Definition get (x : value) (k : string) : result value :=
  match x with
  | VPrim PUndefined | VPrim PNull => Throw (TypeError k)
  | VPrim _ | VArr _ => Ok VUndefined
  | VObj o => Ok (field k o)
  end.

(** [typeof value === "object" && value !== null && !Array.isArray(value)] *)
Definition isRecord (x : value) : bool :=
  match x with
  | VObj _ => true
  | _ => false
  end.

(** [Array.isArray(x)] *)
Definition isArray (x : value) : bool :=
  match x with
  | VArr _ => true
  | _ => false
  end.

(** ToBoolean: [undefined], [null], [false], [0], [-0], [NaN] and the empty
    string are falsy, everything else is truthy. *)
Definition truthy (x : value) : bool :=
  match x with
  | VPrim PUndefined | VPrim PNull => false
  | VPrim (PBool b) => b
  | VPrim (PNum n) => negb ((n =? 0)%float || is_nan n)
  | VPrim (PStr s) => negb (String.eqb s "")
  | VArr _ | VObj _ => true
  end.

(** [a === b] between primitives. *)
Definition strictEqPrim (a b : prim) : bool :=
  match a, b with
  | PUndefined, PUndefined => true
  | PNull, PNull => true
  | PBool x, PBool y => Bool.eqb x y
  | PNum x, PNum y => (x =? y)%float
  | PStr x, PStr y => String.eqb x y
  | _, _ => false
  end.

(** [x === p] for a primitive [p]: an array or a record never equals it. *)
Definition strictEq (x : value) (p : prim) : bool :=
  match x with
  | VPrim q => strictEqPrim q p
  | _ => false
  end.

(** ** The host conversions [String(x)] and [Number(x)]

    They are built into the language, not part of this repository; the
    resolvers are parameterised by them.  Both can throw, also on plain data:
    on a record whose own [toString] is not callable, such as
    [{"toString": 0}], the conversion finds no primitive and raises a
    TypeError. *)
Class Host : Type := {
  js_String : value -> result string;
  js_Number : value -> result float
}.


(** ** Multivariate detection *)

Definition isMultivariateContent (content : obj) : bool :=
  strictEq (field "multivariate" content) (PBool true)
  && isArray (field "variants" content).

(** ** Page variant resolver *)

(** A variant of page content.  The weight has its declared type [number];
    the id is kept as an arbitrary primitive, since nothing at run time
    enforces the declared [string] and the resolver's fallback exists for
    ids that fail the strict comparison. *)
Record PageVariant : Type := mkPageVariant {
  page_id : prim;
  page_weight : float;
  page_sections : value
}.

#[export] Instance PageVariant_like : VariantLike PageVariant prim :=
  {| id := page_id; weight := page_weight |}.

(** The part of [MultivariateContent] the resolver reads. *)
Record MultivariateContent : Type := mkContent {
  variants : list PageVariant
}.

(** [{ sections, variantId }] *)
Record PageResolution : Type := mkResolution {
  sections : value;
  variantId : prim
}.

Definition resolvePageVariant (content : MultivariateContent) (bucket : float)
  : result PageResolution :=
  variantId <- selectVariant bucket (variants content) ;;
  let selectedVariant :=
    find (fun v => strictEqPrim (id v) variantId) (variants content) in
  match selectedVariant with
  | None =>
      (* Fallback to first variant *)
      match nth_error (variants content) 0 with
      | Some first => Ok (mkResolution (page_sections first) (id first))
      | None => Throw (TypeError "sections")
      end
  | Some selected => Ok (mkResolution (page_sections selected) variantId)
  end.

(** ** Blog post variant resolver

    The content record is mutated in place: a computation takes the record
    as it stands and returns it as it is left, together with its outcome. *)

Definition Mut (A : Type) : Type := obj -> obj * result A.

Definition ret {A : Type} (a : A) : Mut A := fun content => (content, Ok a).

Definition lift {A : Type} (r : result A) : Mut A := fun content => (content, r).

Definition andThen {A B : Type} (m : Mut A) (k : A -> Mut B) : Mut B :=
  fun content =>
    match m content with
    | (content', Ok a) => k a content'
    | (content', Throw e) => (content', Throw e)
    end.

Notation "x <~ m ;; k" := (andThen m (fun x => k))
  (at level 61, m at next level, right associativity).
Notation "m ;;; k" := (andThen m (fun _ => k))
  (at level 61, right associativity).

(** [content.k] *)
Definition readField (k : string) : Mut value :=
  fun content => (content, Ok (field k content)).

(** [content.k = v] *)
Definition assign (k : string) (v : value) : Mut unit :=
  fun content => (set k v content, Ok tt).

(** [delete content.k] *)
Definition deleteField (k : string) : Mut unit :=
  fun content => (delete k content, Ok tt).

Section Resolvers.

Context {host : Host}.

(** [v => ({ id: String(v.id), weight: Number(v.weight) })] *)
Definition toConfig (v : value) : result VariantConfig :=
  i <- get v "id" ;;
  coercedId <- js_String i ;;
  w <- get v "weight" ;;
  coercedWeight <- js_Number w ;;
  Ok (mkConfig coercedId coercedWeight).

(** [v => v.id === selectedId] *)
Definition hasId (selectedId : string) (v : value) : result bool :=
  i <- get v "id" ;;
  Ok (strictEq i (PStr selectedId)).

Definition resolveBlogPostVariantM : float -> Mut unit := fun bucket =>
  multivariate <~ readField "multivariate" ;;
  variantsField <~ readField "variants" ;;
  if negb (truthy multivariate) || negb (isArray variantsField) then ret tt
  else
    match variantsField with
    | VArr variants =>
        variantConfigs <~ lift (mapM toConfig variants) ;;
        selectedId <~ lift (selectVariant bucket variantConfigs) ;;
        selectedVariant <~ lift (findM (hasId selectedId) variants) ;;
        (let fallback : Mut unit :=
           (* else if (variants.length > 0) *)
           match variants with
           | first :: _ =>
               blocks <~ lift (get first "blocks") ;;
               assign "blocks" blocks
           | [] => ret tt
           end in
         match selectedVariant with
         | Some selected =>
             if truthy selected then
               blocks <~ lift (get selected "blocks") ;;
               assign "blocks" blocks
             else fallback
         | None => fallback
         end) ;;;
        (* Clean up multivariate fields *)
        deleteField "multivariate" ;;;
        deleteField "variants"
    | _ => ret tt
    end.

(** The call [resolveBlogPostVariant(content, bucket)]: the content record
    as the call leaves it, and whether the call returned or threw. *)
Definition resolveBlogPostVariant (content : obj) (bucket : float) : obj * result unit :=
  resolveBlogPostVariantM bucket content.

(** ** Recursive section/block tree resolver *)

(** [v => isRecord(v) && v.id === selectedId] *)
Definition isSelected (selectedId : string) (v : value) : bool :=
  match v with
  | VObj o => strictEq (field "id" o) (PStr selectedId)
  | _ => false
  end.

(** One activation of [resolveBlockVariant], with [self] standing for the
    recursive calls on the children. *)
Definition resolveBlockStep (self : value -> result value) (bucket : float)
  (block : value) : result value :=
  match block with
  | VObj fields =>
      let blockType := field "type" fields in
      if strictEq blockType (PStr "form") then
        (* Form blocks: resolve multivariate data to a single variant *)
        match field "data" fields with
        | VObj data =>
            if negb (strictEq (field "multivariate" data) (PBool true)) then Ok block
            else
              match field "variants" data with
              | VArr variants =>
                  if Nat.eqb (List.length variants) 0 then Ok block
                  else
                    variantConfigs <- mapM toConfig (filter isRecord variants) ;;
                    selectedId <- selectVariant bucket variantConfigs ;;
                    match find (isSelected selectedId) variants with
                    | Some (VObj selectedVariant) =>
                        Ok (VObj (set "data"
                                    (VObj [("definition", field "definition" data);
                                           ("document", field "document" selectedVariant)])
                                    fields))
                    | _ => Ok block
                    end
              | _ => Ok block
              end
        | _ => Ok block
        end
      else
        (* Layout blocks: recurse into nested children *)
        match field "config" fields with
        | VObj config =>
            let childKey :=
              if isArray (field "children" config) then Some "children"
              else if isArray (field "child" config) then Some "child"
              else None in
            match childKey with
            | None => Ok block
            | Some childKey =>
                match field childKey config with
                | VArr children =>
                    resolvedChildren <- mapM self children ;;
                    Ok (VObj (set "config"
                                (VObj (set childKey (VArr resolvedChildren) config))
                                fields))
                | _ => Ok block
                end
            end
        | _ => Ok block
        end
  | _ => Ok block
  end.

(** [o.k] in continuation style: [found] receives the value stored under
    [k], [missing] is the result when [o] has no such key.  It reads what
    [lookup] reads; the recursive resolver goes through it so that the
    children it descends into are visibly parts of the block. *)
Definition withField {R : Type} (k : string) (o : obj)
  (found : value -> R) (missing : R) : R :=
  (fix go (o : obj) : R :=
     match o with
     | [] => missing
     | (k', v) :: rest => if String.eqb k' k then found v else go rest
     end) o.

(** The recursive function: the form case is that of [resolveBlockStep]
    (it makes no recursive call), the layout case descends into
    [config.children], else into [config.child]. *)
Fixpoint resolveBlockVariant (bucket : float) (block : value) {struct block}
  : result value :=
  match block with
  | VObj fields =>
      if strictEq (field "type" fields) (PStr "form") then
        resolveBlockStep (fun child => Ok child) bucket block
      else
        let descend (childKey : string) (config : obj) (children : list value) :=
          resolvedChildren <- mapM (resolveBlockVariant bucket) children ;;
          Ok (VObj (set "config"
                      (VObj (set childKey (VArr resolvedChildren) config))
                      fields)) in
        withField "config" fields
          (fun c =>
             match c with
             | VObj config =>
                 let viaChild :=
                   withField "child" config
                     (fun x => match x with
                               | VArr children => descend "child" config children
                               | _ => Ok block
                               end)
                     (Ok block) in
                 withField "children" config
                   (fun x => match x with
                             | VArr children => descend "children" config children
                             | _ => viaChild
                             end)
                   viaChild
             | _ => Ok block
             end)
          (Ok block)
  | _ => Ok block
  end.

(** The callback of [sections.map] in [resolveFormVariantsInSections]. *)
Definition resolveSection (bucket : float) (section : value) : result value :=
  match section with
  | VObj fields =>
      match field "config" fields with
      | VObj config =>
          (* Process children blocks *)
          match field "children" config with
          | VArr children =>
              resolvedChildren <- mapM (resolveBlockVariant bucket) children ;;
              Ok (VObj (set "config"
                          (VObj (set "children" (VArr resolvedChildren) config))
                          fields))
          | _ => Ok section
          end
      | _ => Ok section
      end
  | _ => Ok section
  end.

Definition resolveFormVariantsInSections (sections : value) (bucket : float)
  : result value :=
  match sections with
  | VArr sectionList =>
      resolved <- mapM (resolveSection bucket) sectionList ;;
      Ok (VArr resolved)
  | _ => Ok sections
  end.

End Resolvers.

(** ** A host to run the examples on

    [exampleString] and [exampleNumber] follow ECMAScript's [String(x)] and
    [Number(x)]: on [undefined], [null], booleans and strings under
    [String]; on numbers, [undefined], [null], booleans and the empty string
    under [Number]; on NaN and integer-valued numbers below 10^21 under
    [String]; on records under both (a record whose own [toString] is not
    callable has no primitive value: TypeError; any other record is
    ["[object Object]"], hence NaN as a number); on arrays under [String]
    (the items joined by commas) and on the arrays whose string is empty
    under [Number].  Elsewhere (fractional numbers and infinities under
    [String], non-empty strings under [Number]) the value returned is a
    placeholder; the general statements below hold for every host, and no
    example reaches a placeholder. *)

Definition integerOf (n : float) : option Z :=
  match Prim2SF n with
  | S754_zero _ => Some 0%Z
  | S754_finite s m e =>
      let magnitude :=
        if (0 <=? e)%Z then Some (Z.pos m * 2 ^ e)%Z
        else if (Z.pos m mod 2 ^ (- e) =? 0)%Z then Some (Z.pos m / 2 ^ (- e))%Z
        else None in
      option_map (fun z => if s then (- z)%Z else z) magnitude
  | _ => None
  end.

Definition exampleStringPrim (p : prim) : string :=
  match p with
  | PUndefined => "undefined"
  | PNull => "null"
  | PBool true => "true"
  | PBool false => "false"
  | PNum n =>
      if is_nan n then "NaN"
      else match integerOf n with
           | Some z => NilZero.string_of_int (Z.to_int z)
           | None => ""
           end
  | PStr s => s
  end.

Definition no_primitive_value : error :=
  TypeError "Cannot convert object to primitive value".

Fixpoint exampleString (x : value) : result string :=
  match x with
  | VPrim p => Ok (exampleStringPrim p)
  | VArr items =>
      pieces <- mapM (fun item => match item with
                                  | VUndefined | VNull => Ok ""
                                  | _ => exampleString item
                                  end) items ;;
      Ok (String.concat "," pieces)
  | VObj o =>
      if hasKey "toString" o then Throw no_primitive_value
      else Ok "[object Object]"
  end.

Definition exampleNumberPrim (p : prim) : float :=
  match p with
  | PNum n => n
  | PNull | PBool false | PStr "" => 0%float
  | PBool true => 1%float
  | _ => nan
  end.

Definition exampleNumber (x : value) : result float :=
  match x with
  | VPrim p => Ok (exampleNumberPrim p)
  | VArr _ | VObj _ =>
      s <- exampleString x ;;
      Ok (exampleNumberPrim (PStr s))
  end.

Definition exampleHost : Host :=
  {| js_String := exampleString; js_Number := exampleNumber |}.

(** ** Notions used to state further properties *)

(** Position of the variant [selectVariant] settles on: the first position
    whose cumulative normalized weight exceeds the bucket, the last position
    when there is none. *)
Definition selectedPosition {V Id : Type} `{VariantLike V Id}
  (bucket : float) (variants : list V) : nat :=
  match find (fun k => (bucket <? cumulativeUpTo variants k)%float)
             (seq 0 (List.length variants)) with
  | Some k => k
  | None => List.length variants - 1
  end.

(** No record of type ["form"] anywhere in the value. *)
Fixpoint formFree (x : value) : bool :=
  match x with
  | VPrim _ => true
  | VArr items => forallb formFree items
  | VObj fields =>
      negb (strictEq (field "type" fields) (PStr "form"))
      && forallb (fun kv => formFree (snd kv)) fields
  end.

(** The key names of a record, in order. *)
Definition keys (o : obj) : list string := map fst o.

(** The key under which a layout block's [config] holds its children:
    [children] first, else [child], when it is an array. *)
Definition childKeyOf (config : obj) : option string :=
  if isArray (field "children" config) then Some "children"
  else if isArray (field "child" config) then Some "child"
  else None.

(** The nested children of a block, with the [config] and the key they sit
    under; [None] when [config] is not a record or has no children array. *)
Definition nestedChildren (fields : obj) : option (obj * string * list value) :=
  match field "config" fields with
  | VObj config =>
      match childKeyOf config with
      | Some childKey =>
          match field childKey config with
          | VArr children => Some (config, childKey, children)
          | _ => None
          end
      | None => None
      end
  | _ => None
  end.





(** * Properties *)

(** ** The scenarios of the repository's tests, run on the model *)

Section Scenarios.

#[local] Set Warnings "-inexact-float".

Let halves := [mkConfig "a" 50; mkConfig "b" 50].
Let uneven := [mkConfig "a" 70; mkConfig "b" 30].
Let sixths := [mkConfig "a" 1; mkConfig "b" 2; mkConfig "c" 3].

Example select_equal_weights :
  map (fun bucket => selectVariant bucket halves)
      [0; 0.25; 0.49; 0.5; 0.75; 0.99]%float
  = [Ok "a"; Ok "a"; Ok "a"; Ok "b"; Ok "b"; Ok "b"].
Proof. reflexivity. Qed.

Example select_unequal_weights :
  map (fun bucket => selectVariant bucket uneven) [0; 0.69; 0.7; 0.99]%float
  = [Ok "a"; Ok "a"; Ok "b"; Ok "b"].
Proof. reflexivity. Qed.

Example select_unnormalized_weights :
  map (fun bucket => selectVariant bucket sixths)
      [0; 0.16; 0.17; 0.49; 0.5; 0.99]%float
  = [Ok "a"; Ok "a"; Ok "b"; Ok "b"; Ok "c"; Ok "c"].
Proof. reflexivity. Qed.

Example select_single_variant :
  map (fun bucket => selectVariant bucket [mkConfig "single" 100]) [0; 0.5; 0.99]%float
  = [Ok "single"; Ok "single"; Ok "single"].
Proof. reflexivity. Qed.

Example multivariate_detection :
  map isMultivariateContent
      [ [("multivariate", VBool true); ("variants", VArr [])];
        [("multivariate", VBool false)];
        [];
        [("multivariate", VNum 1)];
        [("multivariate", VStr "true")];
        [("multivariate", VBool true)];
        [("multivariate", VBool true); ("variants", VNull)];
        [("multivariate", VBool true); ("variants", VObj [])];
        [("multivariate", VBool true); ("variants", VStr "[]")] ]
  = [true; false; false; false; false; false; false; false; false].
Proof. reflexivity. Qed.

Example page_selects_by_bucket :
  let content :=
    mkContent [mkPageVariant (PStr "a") 50 (VArr [VObj [("type", VStr "section-a")]]);
               mkPageVariant (PStr "b") 50 (VArr [VObj [("type", VStr "section-b")]])] in
  resolvePageVariant content 0
  = Ok (mkResolution (VArr [VObj [("type", VStr "section-a")]]) (PStr "a"))
  /\ resolvePageVariant content 0.6
     = Ok (mkResolution (VArr [VObj [("type", VStr "section-b")]]) (PStr "b")).
Proof. split; reflexivity. Qed.

Let form (variants : list value) : value :=
  VObj [("type", VStr "form");
        ("data", VObj [("definition", VObj []); ("multivariate", VBool true);
                       ("variants", VArr variants)])].

Let resolvedForm (document : value) : value :=
  VObj [("type", VStr "form");
        ("data", VObj [("definition", VObj []); ("document", document)])].

Let variant (name : string) (w : float) (document : value) : value :=
  VObj [("id", VStr name); ("weight", VNum w); ("document", document)].

Example form_in_section_resolved :
  resolveFormVariantsInSections (host := exampleHost)
    (VArr [VObj [("type", VStr "section");
                 ("config", VObj [("children",
                    VArr [form [variant "v" 100 (VObj [("k", VNum 1)])]])])]]) 0
  = Ok (VArr [VObj [("type", VStr "section");
                    ("config", VObj [("children",
                       VArr [resolvedForm (VObj [("k", VNum 1)])])])]]).
Proof. reflexivity. Qed.

Example form_in_grid_layout_resolved :
  resolveFormVariantsInSections (host := exampleHost)
    (VArr [VObj [("type", VStr "section");
                 ("config", VObj [("children",
                    VArr [VObj [("type", VStr "grid-layout");
                                ("config", VObj [("child",
                                   VArr [form [variant "a" 50 (VStr "A");
                                               variant "b" 50 (VStr "B")]])])]])])]]) 0.6
  = Ok (VArr [VObj [("type", VStr "section");
                    ("config", VObj [("children",
                       VArr [VObj [("type", VStr "grid-layout");
                                   ("config", VObj [("child",
                                      VArr [resolvedForm (VStr "B")])])]])])]]).
Proof. reflexivity. Qed.

Example sections_pass_through :
  let sections := VArr [VStr "string"; VNum 123; VNull;
                        VObj [("type", VStr "section"); ("config", VObj [])];
                        VObj [("type", VStr "section"); ("config", VNull)];
                        VObj [("type", VStr "section");
                              ("config", VObj [("children",
                                 VArr [VStr "not-a-block"; VNum 42; VNull;
                                       form []])])]] in
  resolveFormVariantsInSections (host := exampleHost) sections 0 = Ok sections
  /\ resolveFormVariantsInSections (host := exampleHost) VNull 0 = Ok VNull
  /\ resolveFormVariantsInSections (host := exampleHost) (VObj []) 0 = Ok (VObj []).
Proof. repeat split; reflexivity. Qed.

End Scenarios.

(** ** Facts about binary64 arithmetic *)

Section FloatFacts.

Open Scope float_scope.

Lemma ltb_nan_r (x : float) : (x <? nan) = false.
Proof.
  rewrite ltb_spec. change (Prim2SF nan) with S754_nan.
  unfold SFltb. destruct (Prim2SF x); reflexivity.
Qed.

Lemma add_nan_r (x : float) : x + nan = nan.
Proof.
  apply Prim2SF_inj. rewrite add_spec. change (Prim2SF nan) with S754_nan.
  unfold SF64add, SFadd. destruct (Prim2SF x); reflexivity.
Qed.

Lemma eqb_zero_inv (w : float) :
  (w =? 0) = true -> exists s, Prim2SF w = S754_zero s.
Proof.
  rewrite eqb_spec. change (Prim2SF 0) with (S754_zero false).
  unfold SFeqb, SFcompare. destruct (Prim2SF w) as [s| s | | s m e]; try discriminate.
  - intros _. now exists s.
  - destruct s; discriminate.
  - destruct s; discriminate.
Qed.

Lemma zero_add_zero (w : float) : (w =? 0) = true -> 0 + w = 0.
Proof.
  intros Hw. destruct (eqb_zero_inv Hw) as [s Hs].
  apply Prim2SF_inj. rewrite add_spec, Hs. destruct s; reflexivity.
Qed.

Lemma zero_div_zero (w : float) : (w =? 0) = true -> w / 0 = nan.
Proof.
  intros Hw. destruct (eqb_zero_inv Hw) as [s Hs].
  apply Prim2SF_inj. rewrite div_spec, Hs. destruct s; reflexivity.
Qed.






End FloatFacts.

(** ** The selector *)

Section SelectorFacts.

Context {V Id : Type} `{VariantLike V Id}.

Lemma firstn_through (pre rest : list V) (x : V) :
  firstn (S (List.length pre)) (pre ++ x :: rest) = pre ++ [x].
Proof.
  induction pre as [|y pre IH]; simpl in *; [reflexivity|].
  now rewrite IH.
Qed.

Lemma cumulativeUpTo_prefix (pre rest : list V) (x : V) :
  cumulativeUpTo (pre ++ x :: rest) (List.length pre)
  = (runningSum (totalWeight (pre ++ x :: rest)) pre
     + weight x / totalWeight (pre ++ x :: rest))%float.
Proof.
  unfold cumulativeUpTo, runningSum.
  rewrite firstn_through, fold_left_app. reflexivity.
Qed.

(** What the loop does on a suffix [rest], entered with the running sum of
    the prefix [pre] that no bucket comparison has passed yet. *)
Lemma selectLoop_scan (bucket : float) (rest pre : list V) :
  let variants := pre ++ rest in
  (forall j, j < List.length pre ->
             (bucket <? cumulativeUpTo variants j)%float = false) ->
  match selectLoop bucket (totalWeight variants)
                   (runningSum (totalWeight variants) pre) rest with
  | Some chosen =>
      exists k v, nth_error variants k = Some v /\ chosen = id v /\
                  (bucket <? cumulativeUpTo variants k)%float = true /\
                  forall j, j < k ->
                            (bucket <? cumulativeUpTo variants j)%float = false
  | None =>
      forall j, j < List.length variants ->
                (bucket <? cumulativeUpTo variants j)%float = false
  end.
Proof.
  revert pre. induction rest as [|x rest IH]; intros pre variants Hpre.
  - simpl. subst variants. rewrite app_nil_r in *. exact Hpre.
  - simpl. subst variants.
    rewrite <- cumulativeUpTo_prefix.
    destruct (bucket <? cumulativeUpTo (pre ++ x :: rest) (List.length pre))%float eqn:E.
    + exists (List.length pre), x. repeat split; auto.
      rewrite nth_error_app2, Nat.sub_diag by lia. reflexivity.
    + specialize (IH (pre ++ [x])). cbv zeta in IH.
      replace ((pre ++ [x]) ++ rest) with (pre ++ x :: rest) in IH
        by (rewrite <- app_assoc; reflexivity).
      assert (Hrun : runningSum (totalWeight (pre ++ x :: rest)) (pre ++ [x])
                     = cumulativeUpTo (pre ++ x :: rest) (List.length pre)).
      { rewrite cumulativeUpTo_prefix. unfold runningSum.
        rewrite fold_left_app. reflexivity. }
      rewrite Hrun in IH. apply IH.
      intros j Hj. rewrite length_app in Hj. simpl in Hj.
      destruct (Nat.eq_dec j (List.length pre)) as [->|Hne]; [exact E|].
      apply Hpre. lia.
Qed.

Lemma nth_error_last_nonempty (variants : list V) :
  variants <> [] ->
  exists v, nth_error variants (List.length variants - 1) = Some v.
Proof.
  intros Hne.
  destruct (nth_error variants (List.length variants - 1)) as [v|] eqn:E.
  - now exists v.
  - apply nth_error_None in E. destruct variants; [congruence|simpl in E; lia].
Qed.

Lemma selectVariant_nonempty (bucket : float) (variants : list V) :
  variants <> [] ->
  selectVariant bucket variants
  = match selectLoop bucket (totalWeight variants) 0%float variants with
    | Some chosen => Ok chosen
    | None =>
        match nth_error variants (List.length variants - 1) with
        | Some v => Ok (id v)
        | None => Throw (TypeError "Cannot read properties of undefined (reading 'id')")
        end
    end.
Proof.
  intros Hne. unfold selectVariant.
  destruct variants; [congruence|reflexivity].
Qed.

(** The outcome of [selectVariant] on a non-empty list, in terms of the
    cumulative weights. *)
Lemma selectVariant_scan (bucket : float) (variants : list V) :
  variants <> [] ->
  (exists k v,
      nth_error variants k = Some v /\
      (bucket <? cumulativeUpTo variants k)%float = true /\
      (forall j, j < k -> (bucket <? cumulativeUpTo variants j)%float = false) /\
      selectVariant bucket variants = Ok (id v))
  \/
  ((forall j, j < List.length variants ->
              (bucket <? cumulativeUpTo variants j)%float = false) /\
   exists v,
      nth_error variants (List.length variants - 1) = Some v /\
      selectVariant bucket variants = Ok (id v)).
Proof.
  intros Hne. rewrite (selectVariant_nonempty bucket Hne).
  pose proof (@selectLoop_scan bucket variants []) as Hscan.
  simpl in Hscan. specialize (Hscan ltac:(intros j Hj; inversion Hj)).
  change (runningSum (totalWeight variants) []) with 0%float in Hscan.
  destruct (selectLoop bucket (totalWeight variants) 0%float variants) as [chosen|].
  - left. destruct Hscan as (k & v & Hk & -> & Hlt & Hbefore).
    exists k, v. auto.
  - right. split; [exact Hscan|].
    destruct (nth_error_last_nonempty Hne) as [v Hv].
    exists v. rewrite Hv. auto.
Qed.


End SelectorFacts.


(** *** Weights that are all zero *)

Section ZeroWeights.

Context {V Id : Type} `{VariantLike V Id}.

Lemma totalWeight_all_zero (variants : list V) :
  (forall v, In v variants -> (weight v =? 0)%float = true) ->
  totalWeight variants = 0%float.
Proof.
  unfold totalWeight. induction variants as [|x rest IH]; intros Hzero; simpl.
  - reflexivity.
  - rewrite zero_add_zero by (apply Hzero; now left).
    apply IH. intros v Hv. apply Hzero. now right.
Qed.

(** With a zero total every quotient is NaN, and no bucket is below NaN. *)
Lemma selectLoop_zero_total (bucket cumulative : float) (variants : list V) :
  (forall v, In v variants -> (weight v =? 0)%float = true) ->
  selectLoop bucket 0%float cumulative variants = None.
Proof.
  revert cumulative. induction variants as [|x rest IH]; intros cumulative Hzero; simpl.
  - reflexivity.
  - rewrite zero_div_zero by (apply Hzero; now left).
    rewrite add_nan_r, ltb_nan_r.
    apply IH. intros v Hv. apply Hzero. now right.
Qed.

(** C9. On a non-empty list whose weights are all zero the total is 0, every
    normalized weight is 0/0 = NaN, and [selectVariant] raises no error: it
    returns the id of the last variant, whatever the bucket.  In particular a
    single variant of weight 0 is returned for every bucket. *)
Theorem selectVariant_all_zero_weights (bucket : float) (variants : list V) :
  variants <> [] ->
  (forall v, In v variants -> (weight v =? 0)%float = true) ->
  (exists v, nth_error variants (List.length variants - 1) = Some v /\
             selectVariant bucket variants = Ok (id v))
  /\ (forall v, variants = [v] -> selectVariant bucket variants = Ok (id v)).
Proof.
  intros Hne Hzero.
  assert (Hlast : exists v, nth_error variants (List.length variants - 1) = Some v /\
                            selectVariant bucket variants = Ok (id v)).
  { rewrite (selectVariant_nonempty bucket Hne).
    rewrite (totalWeight_all_zero _ Hzero), (selectLoop_zero_total _ _ _ Hzero).
    destruct (nth_error_last_nonempty Hne) as [v Hv].
    exists v. rewrite Hv. auto. }
  split; [exact Hlast|].
  intros v ->. destruct Hlast as (v' & Hv' & Hsel).
  simpl in Hv'. injection Hv' as <-. exact Hsel.
Qed.

End ZeroWeights.

(** The two all-zero lists of C9, run: one variant, and two variants. *)
Lemma selectVariant_all_zero_weights_witness :
  [mkConfig "a" 0; mkConfig "b" 0] <> []
  /\ (forall v, In v [mkConfig "a" 0; mkConfig "b" 0] -> (weight v =? 0)%float = true)
  /\ selectVariant 0 [mkConfig "a" 0; mkConfig "b" 0] = Ok "b".
Proof.
  assert (Hne : [mkConfig "a" 0; mkConfig "b" 0] <> []) by discriminate.
  assert (Hzero : forall v, In v [mkConfig "a" 0; mkConfig "b" 0] ->
                            (weight v =? 0)%float = true).
  { intros v [<-|[<-|[]]]; reflexivity. }
  split; [exact Hne|]. split; [exact Hzero|].
  destruct (selectVariant_all_zero_weights 0 Hne Hzero) as [(v & Hv & Hsel) _].
  simpl in Hv. injection Hv as <-. exact Hsel.
Defined.

(** *** Scaling the weights *)

Section Scaling.

Variables (bucket c : float) (variants : list VariantConfig).

Let total := totalWeight variants.
Let total' := totalWeight (scaleWeights c variants).

Lemma selectLoop_scaled (cumulative : float) (rest : list VariantConfig) :
  (forall v, In v rest ->
     (weight v * c / total' = weight v / total)%float) ->
  selectLoop bucket total' cumulative (scaleWeights c rest)
  = selectLoop bucket total cumulative rest.
Proof.
  revert cumulative. induction rest as [|x rest IH]; intros cumulative Hq; simpl.
  - reflexivity.
  - change (config_weight x * c / total')%float with (weight x * c / total')%float.
    rewrite (Hq x) by now left.
    change (weight x) with (config_weight x).
    destruct (bucket <? cumulative + config_weight x / total)%float; [reflexivity|].
    apply IH. intros v Hv. apply Hq. now right.
Qed.

(** C4, as the code has it.  Multiplying every weight by [c] leaves the
    selection unchanged whenever it leaves every normalized weight
    [weight / totalWeight], as computed in binary64, unchanged. *)
Theorem selectVariant_scale_invariant :
  (forall v, In v variants ->
     (weight v * c / totalWeight (scaleWeights c variants)
      = weight v / totalWeight variants)%float) ->
  selectVariant bucket (scaleWeights c variants) = selectVariant bucket variants.
Proof.
  intros Hq. unfold selectVariant.
  unfold scaleWeights at 1. rewrite length_map.
  destruct (Nat.eqb (List.length variants) 0); [reflexivity|].
  fold total total'. rewrite (selectLoop_scaled 0%float variants Hq).
  destruct (selectLoop bucket total 0 variants); [reflexivity|].
  unfold scaleWeights. rewrite length_map, nth_error_map.
  destruct (nth_error variants (List.length variants - 1)); reflexivity.
Qed.

End Scaling.

(** Doubling the weights 1, 2, 3 is exact: every normalized weight is kept. *)
Lemma selectVariant_scale_invariant_witness :
  let variants := [mkConfig "a" 1; mkConfig "b" 2; mkConfig "c" 3] in
  (forall v, In v variants ->
     (weight v * 2 / totalWeight (scaleWeights 2 variants)
      = weight v / totalWeight variants)%float)
  /\ selectVariant 0.5 (scaleWeights 2 variants) = selectVariant 0.5 variants.
Proof.
  intros variants.
  assert (Hq : forall v, In v variants ->
     (weight v * 2 / totalWeight (scaleWeights 2 variants)
      = weight v / totalWeight variants)%float).
  { intros v [<-|[<-|[<-|[]]]]; vm_compute; reflexivity. }
  split; [exact Hq|].
  exact (@selectVariant_scale_invariant 0.5%float 2%float variants Hq).
Defined.

(** C4, as stated, fails: with weights 3 and 1 the boundary between the two
    variants is 0.75, and bucket 0.75 selects "b"; scaled by one tenth (the
    binary64 nearest to 0.1) the weights sum to 0.4 rounded, the boundary
    moves one unit in the last place above 0.75, and the same bucket selects
    "a". *)
Lemma selectVariant_scale_changes_selection :
  let variants := [mkConfig "a" 3; mkConfig "b" 1] in
  let c := 0x1.999999999999ap-4%float in
  let bucket := 0.75%float in
  (0 <=? bucket)%float = true /\ (bucket <? 1)%float = true /\
  (0 <? c)%float = true /\ variants <> [] /\
  selectVariant bucket variants = Ok "b" /\
  selectVariant bucket (scaleWeights c variants) = Ok "a".
Proof.
  vm_compute. repeat split; discriminate.
Qed.

(** *** Coverage of the bucket range *)

Section Coverage.

Context {V Id : Type} `{VariantLike V Id}.





End Coverage.



(** ** Outcomes of the selector and of the maps *)






(** ** Reading records *)

Lemma withField_lookup {R : Type} (k : string) (o : obj) (found : value -> R) (missing : R) :
  withField k o found missing
  = match lookup k o with
    | Some v => found v
    | None => missing
    end.
Proof.
  unfold withField. induction o as [|[k' v] rest IH]; simpl; [reflexivity|].
  destruct (String.eqb k' k); auto.
Qed.

Lemma lookup_delete (k k' : string) (o : obj) :
  lookup k (delete k' o) = if String.eqb k k' then None else lookup k o.
Proof.
  unfold delete. induction o as [|[k0 v] rest IH]; simpl.
  - now destruct (String.eqb k k').
  - destruct (String.eqb k0 k') eqn:E0; simpl.
    + apply String.eqb_eq in E0. subst k0. rewrite IH.
      rewrite (String.eqb_sym k' k). now destruct (String.eqb k k').
    + rewrite IH. destruct (String.eqb k0 k) eqn:E1; [|reflexivity].
      apply String.eqb_eq in E1. subst k0. now rewrite E0.
Qed.

Lemma hasKey_delete (k k' : string) (o : obj) :
  hasKey k (delete k' o) = negb (String.eqb k k') && hasKey k o.
Proof.
  unfold hasKey. rewrite lookup_delete. now destruct (String.eqb k k').
Qed.

(** ** The recursive resolver, one activation at a time *)

Section BlockFacts.

Context {host : Host}.

Lemma resolveBlockVariant_unfold (bucket : float) (block : value) :
  resolveBlockVariant bucket block
  = resolveBlockStep (resolveBlockVariant bucket) bucket block.
Proof.
  destruct block as [p|items|fields]; try reflexivity.
  simpl. destruct (strictEq (field "type" fields) (PStr "form")) eqn:Etype.
  - reflexivity.
  - rewrite withField_lookup. unfold field at 1 2.
    destruct (lookup "config" fields) as [[p|items|config]|]; try reflexivity.
    rewrite !withField_lookup. unfold field.
    destruct (lookup "children" config) as [[p|items|o]|] eqn:Echildren;
      destruct (lookup "child" config) as [[p'|items'|o']|] eqn:Echild;
      simpl; rewrite ?Echildren, ?Echild; reflexivity.
Qed.

Lemma toConfig_record (o : obj) :
  toConfig (VObj o)
  = (coercedId <- js_String (field "id" o) ;;
     coercedWeight <- js_Number (field "weight" o) ;;
     Ok (mkConfig coercedId coercedWeight)).
Proof. reflexivity. Qed.



End BlockFacts.

(** ** Induction on JavaScript data *)

Section ValueInduction.

Variable P : value -> Prop.
Hypothesis Hprim : forall p, P (VPrim p).
Hypothesis Harr : forall items, Forall P items -> P (VArr items).
Hypothesis Hobj : forall fields, Forall (fun kv => P (snd kv)) fields -> P (VObj fields).

Fixpoint value_nested_ind (x : value) : P x :=
  match x with
  | VPrim p => Hprim p
  | VArr items =>
      Harr ((fix all (l : list value) : Forall P l :=
               match l with
               | [] => Forall_nil _
               | y :: rest => Forall_cons y (value_nested_ind y) (all rest)
               end) items)
  | VObj fields =>
      Hobj ((fix all (l : obj) : Forall (fun kv => P (snd kv)) l :=
               match l with
               | [] => Forall_nil _
               | (k, y) :: rest =>
                   Forall_cons (P := fun kv => P (snd kv)) (k, y)
                               (value_nested_ind y) (all rest)
               end) fields)
  end.

End ValueInduction.

Lemma lookup_In (k : string) (o : obj) (v : value) :
  lookup k o = Some v -> In (k, v) o.
Proof.
  induction o as [|[k' v'] rest IH]; simpl; [discriminate|].
  destruct (String.eqb k' k) eqn:E.
  - apply String.eqb_eq in E. intros [= ->]. left. now subst.
  - intros Hl. right. auto.
Qed.

Lemma field_array_In (k : string) (o : obj) (items : list value) :
  field k o = VArr items -> In (k, VArr items) o.
Proof.
  unfold field. destruct (lookup k o) eqn:E; [|discriminate].
  intros ->. now apply lookup_In.
Qed.

Lemma field_record_In (k : string) (o o' : obj) :
  field k o = VObj o' -> In (k, VObj o') o.
Proof.
  unfold field. destruct (lookup k o) eqn:E; [|discriminate].
  intros ->. now apply lookup_In.
Qed.

(** ** The errors of the tree resolver *)

Section TreeErrors.

Context {host : Host}.
Variable bucket : float.









End TreeErrors.

(** ** Getting to a block *)

Section Reaching.

Context {host : Host}.
Variable bucket : float.

Lemma nestedChildren_inv (fields config : obj) (childKey : string)
  (children : list value) :
  nestedChildren fields = Some (config, childKey, children) ->
  field "config" fields = VObj config
  /\ field childKey config = VArr children
  /\ childKeyOf config = Some childKey.
Proof.
  unfold nestedChildren.
  destruct (field "config" fields) as [p|items|config0]; try discriminate.
  destruct (childKeyOf config0) as [key|] eqn:Ekeyof; try discriminate.
  destruct (field key config0) as [p|children0|o] eqn:Ekey; try discriminate.
  intros [= <- <- <-]. repeat split; auto.
Qed.

(** The layout case: the children are resolved and put back in place. *)
Lemma resolveBlockVariant_layout (fields : obj) :
  strictEq (field "type" fields) (PStr "form") = false ->
  resolveBlockVariant bucket (VObj fields)
  = match nestedChildren fields with
    | Some (config, childKey, children) =>
        resolvedChildren <- mapM (resolveBlockVariant bucket) children ;;
        Ok (VObj (set "config"
                    (VObj (set childKey (VArr resolvedChildren) config))
                    fields))
    | None => Ok (VObj fields)
    end.
Proof.
  intros Hlayout. rewrite resolveBlockVariant_unfold.
  unfold resolveBlockStep, nestedChildren, childKeyOf. rewrite Hlayout.
  destruct (field "config" fields) as [p|items|config]; try reflexivity.
  destruct (isArray (field "children" config)).
  - destruct (field "children" config); reflexivity.
  - destruct (isArray (field "child" config)); [|reflexivity].
    destruct (field "child" config); reflexivity.
Qed.







End Reaching.

(** ** Form blocks whose variants are not records *)

Section NonRecordVariants.

Context {host : Host}.



End NonRecordVariants.


(** ** The blog post resolver *)

Ltac unfold_blog :=
  unfold resolveBlogPostVariant, resolveBlogPostVariantM,
    andThen, readField, lift, ret, assign, deleteField.

Section BlogFacts.

Context {host : Host}.

(** The guard of the first line. *)
Lemma resolveBlogPostVariant_guard (content : obj) (bucket : float) :
  truthy (field "multivariate" content) = false
  \/ isArray (field "variants" content) = false ->
  resolveBlogPostVariant content bucket = (content, Ok tt).
Proof.
  intros Hguard. unfold_blog.
  destruct Hguard as [-> | ->]; [reflexivity|].
  now rewrite orb_true_r.
Qed.

(** C8. When [content.multivariate] is falsy or [content.variants] is not an
    array ([null] included), the call returns at once and the content record
    is left exactly as it was. *)
Theorem resolveBlogPostVariant_noop (content : obj) (bucket : float) :
  truthy (field "multivariate" content) = false
  \/ isArray (field "variants" content) = false ->
  resolveBlogPostVariant content bucket = (content, Ok tt).
Proof.
  intros [Hfalsy | Hnotarray]; unfold_blog.
  - now rewrite Hfalsy.
  - rewrite Hnotarray. now rewrite orb_true_r.
Qed.

(** On the active path the guard is passed and the coerced list goes to the
    selector. *)
Lemma resolveBlogPostVariant_active (content : obj) (bucket : float)
  (variants : list value) :
  truthy (field "multivariate" content) = true ->
  field "variants" content = VArr variants ->
  resolveBlogPostVariant content bucket
  = match mapM toConfig variants with
    | Throw e => (content, Throw e)
    | Ok variantConfigs =>
        match selectVariant bucket variantConfigs with
        | Throw e => (content, Throw e)
        | Ok selectedId =>
            match findM (hasId selectedId) variants with
            | Throw e => (content, Throw e)
            | Ok selectedVariant =>
                let chosen :=
                  match selectedVariant with
                  | Some selected =>
                      if truthy selected then Some selected else hd_error variants
                  | None => hd_error variants
                  end in
                match chosen with
                | None => (delete "variants" (delete "multivariate" content), Ok tt)
                | Some variant =>
                    match get variant "blocks" with
                    | Throw e => (content, Throw e)
                    | Ok blocks =>
                        (delete "variants"
                           (delete "multivariate" (set "blocks" blocks content)),
                         Ok tt)
                    end
                end
            end
        end
    end.
Proof.
  intros Hmulti Hvariants. unfold_blog. rewrite Hmulti, Hvariants. simpl.
  destruct (mapM toConfig variants) as [variantConfigs|e]; [|reflexivity].
  destruct (selectVariant bucket variantConfigs) as [selectedId|e]; [|reflexivity].
  destruct (findM (hasId selectedId) variants) as [[selected|]|e]; try reflexivity.
  - simpl. destruct (truthy selected).
    + destruct (get selected "blocks"); reflexivity.
    + destruct variants as [|first rest]; simpl; [reflexivity|].
      destruct (get first "blocks"); reflexivity.
  - destruct variants as [|first rest]; simpl; [reflexivity|].
    destruct (get first "blocks"); reflexivity.
Qed.

(** C5. With [content.multivariate] true (any truthy value) and
    [content.variants] the empty array, the guard is passed, the coerced list
    is empty, [selectVariant] is called on it, and its empty-list error comes
    out of [resolveBlogPostVariant]; the content record is untouched. *)
Theorem resolveBlogPostVariant_empty_variants (content : obj) (bucket : float) :
  truthy (field "multivariate" content) = true ->
  field "variants" content = VArr [] ->
  mapM toConfig [] = Ok []
  /\ selectVariant bucket ([] : list VariantConfig) = Throw empty_variants_error
  /\ resolveBlogPostVariant content bucket = (content, Throw empty_variants_error).
Proof.
  intros Hmulti Hvariants. repeat split.
  now rewrite (resolveBlogPostVariant_active content bucket Hmulti Hvariants).
Qed.

(** C6, as the code has it.  When the guard is passed ([content.multivariate]
    truthy and [content.variants] an array) and the call returns, the record
    has been changed and carries neither a [multivariate] nor a [variants]
    key. *)
Theorem resolveBlogPostVariant_cleans_up (content content' : obj) (bucket : float) :
  truthy (field "multivariate" content) = true ->
  isArray (field "variants" content) = true ->
  resolveBlogPostVariant content bucket = (content', Ok tt) ->
  hasKey "multivariate" content' = false
  /\ hasKey "variants" content' = false
  /\ content' <> content.
Proof.
  intros Hmulti Harray Hrun.
  destruct (field "variants" content) as [p|variants|o] eqn:Hvariants; try discriminate.
  rewrite (resolveBlogPostVariant_active content bucket Hmulti Hvariants) in Hrun.
  assert (Hshape : exists inner, content' = delete "variants" (delete "multivariate" inner)).
  { destruct (mapM toConfig variants) as [variantConfigs|e]; [|discriminate].
    destruct (selectVariant bucket variantConfigs) as [selectedId|e]; [|discriminate].
    destruct (findM (hasId selectedId) variants) as [selectedVariant|e]; [|discriminate].
    cbv zeta in Hrun.
    destruct (match selectedVariant with
              | Some selected =>
                  if truthy selected then Some selected else hd_error variants
              | None => hd_error variants
              end) as [variant|].
    - destruct (get variant "blocks") as [blocks|e]; [|discriminate].
      injection Hrun as <-. eexists. reflexivity.
    - injection Hrun as <-. eexists. reflexivity. }
  destruct Hshape as [inner ->].
  assert (Hgone : hasKey "variants" (delete "variants" (delete "multivariate" inner)) = false)
    by (rewrite hasKey_delete; reflexivity).
  repeat split.
  - rewrite !hasKey_delete. reflexivity.
  - exact Hgone.
  - intros Hsame. rewrite Hsame in Hgone.
    unfold hasKey in Hgone. unfold field in Hvariants.
    destruct (lookup "variants" content); discriminate.
Qed.

End BlogFacts.

(** The blog post of the specification's third scenario. *)
Lemma resolveBlogPostVariant_cleans_up_witness :
  let blocks := VArr [VObj [("type", VStr "x")]] in
  let content := [("multivariate", VBool true);
                  ("variants", VArr [VObj [("id", VStr "a"); ("weight", VNum 100);
                                           ("blocks", blocks)]])] in
  resolveBlogPostVariant (host := exampleHost) content 0 = ([("blocks", blocks)], Ok tt)
  /\ hasKey "multivariate" [("blocks", blocks)] = false
  /\ hasKey "variants" [("blocks", blocks)] = false.
Proof.
  intros blocks content.
  assert (Hrun : resolveBlogPostVariant (host := exampleHost) content 0
                 = ([("blocks", blocks)], Ok tt)) by (vm_compute; reflexivity).
  split; [exact Hrun|].
  destruct (@resolveBlogPostVariant_cleans_up exampleHost content _ 0%float
              eq_refl eq_refl Hrun) as (Hm & Hv & _).
  split; assumption.
Defined.

(** C6, as stated, fails on the no-op path: with [variants: null] the call
    returns and the record still carries both keys. *)
Lemma resolveBlogPostVariant_keys_survive_noop :
  let content := [("multivariate", VBool true); ("variants", VNull)] in
  resolveBlogPostVariant (host := exampleHost) content 0 = (content, Ok tt)
  /\ hasKey "multivariate" content = true
  /\ hasKey "variants" content = true.
Proof. vm_compute. repeat split. Qed.

Lemma resolveBlogPostVariant_noop_witness :
  let content := [("multivariate", VBool true); ("variants", VNull)] in
  resolveBlogPostVariant (host := exampleHost) content 0 = (content, Ok tt).
Proof.
  intros content.
  apply (@resolveBlogPostVariant_noop exampleHost content 0%float).
  right. reflexivity.
Defined.

Lemma resolveBlogPostVariant_empty_variants_witness :
  let content := [("multivariate", VBool true); ("variants", VArr [])] in
  resolveBlogPostVariant (host := exampleHost) content 0
  = (content, Throw empty_variants_error).
Proof.
  intros content.
  apply (@resolveBlogPostVariant_empty_variants exampleHost content 0%float);
    reflexivity.
Defined.

(** ** Which values make a property read throw *)

Lemma get_throw_inv (x : value) (k : string) (e : error) :
  get x k = Throw e -> x = VUndefined \/ x = VNull.
Proof.
  destruct x as [[| |b|n|s]|items|o]; simpl; try discriminate; auto.
Qed.

Lemma get_defined (x : value) (k : string) :
  x <> VUndefined -> x <> VNull -> exists y, get x k = Ok y.
Proof.
  intros Hu Hn. destruct (get x k) as [y|e] eqn:E; [now exists y|].
  destruct (get_throw_inv _ _ E); contradiction.
Qed.


Lemma findM_Some_In {A : Type} (p : A -> result bool) (xs : list A) (x : A) :
  findM p xs = Ok (Some x) -> In x xs.
Proof.
  induction xs as [|y rest IH]; simpl; [discriminate|].
  destruct (p y) as [[|]|e0]; try discriminate.
  - intros [= ->]. now left.
  - intros Hrest. right. auto.
Qed.


Section CoercionFacts.

Context {host : Host}.



Lemma mapM_toConfig_defined (vs : list value) (configs : list VariantConfig) (v : value) :
  mapM toConfig vs = Ok configs -> In v vs -> v <> VUndefined /\ v <> VNull.
Proof.
  revert configs. induction vs as [|x rest IH]; intros configs; simpl; [contradiction|].
  destruct (toConfig x) as [c|e] eqn:Ex; [|discriminate].
  destruct (mapM toConfig rest) as [cs|e]; [|discriminate].
  intros _ [<-|Hin]; [|now apply (IH cs)].
  split; intros ->; discriminate.
Qed.

End CoercionFacts.

(** ** A selected id that matches no variant *)

Section FailedLookup.

Context {host : Host}.

Lemma block_unmatched_unchanged (bucket : float) (fields data : obj)
  (variants : list value) (variantConfigs : list VariantConfig) (selectedId : string) :
  strictEq (field "type" fields) (PStr "form") = true ->
  field "data" fields = VObj data ->
  strictEq (field "multivariate" data) (PBool true) = true ->
  field "variants" data = VArr variants ->
  mapM toConfig (filter isRecord variants) = Ok variantConfigs ->
  selectVariant bucket variantConfigs = Ok selectedId ->
  find (isSelected selectedId) variants = None ->
  resolveBlockVariant bucket (VObj fields) = Ok (VObj fields).
Proof.
  intros Hform Hdata Hmulti Hvariants Hconfigs Hsel Hfind.
  rewrite resolveBlockVariant_unfold. unfold resolveBlockStep.
  rewrite Hform, Hdata, Hmulti, Hvariants. simpl.
  destruct (Nat.eqb (List.length variants) 0); [reflexivity|].
  rewrite Hconfigs. simpl. rewrite Hsel. simpl. now rewrite Hfind.
Qed.

Lemma page_unmatched_falls_back (content : MultivariateContent) (bucket : float)
  (chosen : prim) :
  selectVariant bucket (variants content) = Ok chosen ->
  find (fun v => strictEqPrim (id v) chosen) (variants content) = None ->
  exists first,
    nth_error (variants content) 0 = Some first /\
    resolvePageVariant content bucket
    = Ok (mkResolution (page_sections first) (id first)).
Proof.
  intros Hsel Hfind. unfold resolvePageVariant, bind. rewrite Hsel, Hfind.
  destruct (variants content) as [|first rest]; [discriminate|].
  exists first. auto.
Qed.

Lemma blog_unmatched_falls_back (content : obj) (bucket : float)
  (variants : list value) (variantConfigs : list VariantConfig) (selectedId : string) :
  truthy (field "multivariate" content) = true ->
  field "variants" content = VArr variants ->
  mapM toConfig variants = Ok variantConfigs ->
  selectVariant bucket variantConfigs = Ok selectedId ->
  findM (hasId selectedId) variants = Ok None ->
  exists first blocks,
    hd_error variants = Some first /\ get first "blocks" = Ok blocks /\
    resolveBlogPostVariant content bucket
    = (delete "variants" (delete "multivariate" (set "blocks" blocks content)), Ok tt).
Proof.
  intros Hmulti Hvariants Hconfigs Hsel Hfind.
  rewrite (resolveBlogPostVariant_active content bucket Hmulti Hvariants).
  rewrite Hconfigs, Hsel, Hfind. cbv zeta.
  destruct variants as [|first rest].
  - simpl in Hconfigs. injection Hconfigs as <-. discriminate.
  - destruct (mapM_toConfig_defined _ first Hconfigs ltac:(now left)) as [Hu Hn].
    destruct (get_defined "blocks" Hu Hn) as [blocks Hblocks].
    exists first, blocks. simpl. rewrite Hblocks. auto.
Qed.

(** C7. In the tree resolver, a multivariate form block whose selected
    (coerced, string) id equals no variant's own [id] is returned unchanged,
    with no fallback; [resolvePageVariant] and [resolveBlogPostVariant] fall
    back to the first variant when their lookup fails. *)
Theorem unmatched_id_unchanged_in_tree_fallback_elsewhere :
  (forall (bucket : float) (fields data : obj) (variants : list value)
          (variantConfigs : list VariantConfig) (selectedId : string),
      strictEq (field "type" fields) (PStr "form") = true ->
      field "data" fields = VObj data ->
      strictEq (field "multivariate" data) (PBool true) = true ->
      field "variants" data = VArr variants ->
      mapM toConfig (filter isRecord variants) = Ok variantConfigs ->
      selectVariant bucket variantConfigs = Ok selectedId ->
      find (isSelected selectedId) variants = None ->
      resolveBlockVariant bucket (VObj fields) = Ok (VObj fields))
  /\
  (forall (content : MultivariateContent) (bucket : float) (chosen : prim),
      selectVariant bucket (variants content) = Ok chosen ->
      find (fun v => strictEqPrim (id v) chosen) (variants content) = None ->
      exists first,
        nth_error (variants content) 0 = Some first /\
        resolvePageVariant content bucket
        = Ok (mkResolution (page_sections first) (id first)))
  /\
  (forall (content : obj) (bucket : float) (variants : list value)
          (variantConfigs : list VariantConfig) (selectedId : string),
      truthy (field "multivariate" content) = true ->
      field "variants" content = VArr variants ->
      mapM toConfig variants = Ok variantConfigs ->
      selectVariant bucket variantConfigs = Ok selectedId ->
      findM (hasId selectedId) variants = Ok None ->
      exists first blocks,
        hd_error variants = Some first /\ get first "blocks" = Ok blocks /\
        resolveBlogPostVariant content bucket
        = (delete "variants" (delete "multivariate" (set "blocks" blocks content)),
           Ok tt)).
Proof.
  split; [|split].
  - exact block_unmatched_unchanged.
  - exact page_unmatched_falls_back.
  - exact blog_unmatched_falls_back.
Qed.

End FailedLookup.

(** Numeric ids, which the coerced string never equals: the form block comes
    back as it was, the blog post takes the first variant's blocks; a page
    variant whose id is NaN equals nothing, itself included, and the page
    resolver takes the first variant. *)
Lemma unmatched_id_unchanged_in_tree_fallback_elsewhere_witness :
  let document := VObj [("k", VNum 1)] in
  let formData := [("definition", VObj []); ("multivariate", VBool true);
                   ("variants", VArr [VObj [("id", VNum 1); ("weight", VNum 100);
                                            ("document", document)]])] in
  let block := [("type", VStr "form"); ("data", VObj formData)] in
  let page := mkContent [mkPageVariant (PNum nan) 100 (VArr [VStr "s"])] in
  let blocks := VArr [VObj [("type", VStr "fallback-block")]] in
  let post := [("multivariate", VBool true);
               ("variants", VArr [VObj [("id", VNum 123); ("weight", VNum 100);
                                        ("blocks", blocks)]])] in
  resolveBlockVariant (host := exampleHost) 0 (VObj block) = Ok (VObj block)
  /\ resolvePageVariant page 0 = Ok (mkResolution (VArr [VStr "s"]) (PNum nan))
  /\ resolveBlogPostVariant (host := exampleHost) post 0 = ([("blocks", blocks)], Ok tt).
Proof.
  intros document formData block page blocks post.
  destruct (@unmatched_id_unchanged_in_tree_fallback_elsewhere exampleHost)
    as (Htree & Hpage & Hblog).
  split; [|split].
  - apply (Htree 0%float block formData
             [VObj [("id", VNum 1); ("weight", VNum 100); ("document", document)]]
             [mkConfig "1" 100] "1"); reflexivity.
  - destruct (Hpage page 0%float (PNum nan) eq_refl eq_refl) as (first & Hfirst & Hrun).
    injection Hfirst as <-. exact Hrun.
  - destruct (Hblog post 0%float
                [VObj [("id", VNum 123); ("weight", VNum 100); ("blocks", blocks)]]
                [mkConfig "123" 100] "123"
                eq_refl eq_refl eq_refl eq_refl eq_refl)
      as (first & found & Hfirst & Hblocks & Hrun).
    injection Hfirst as <-. injection Hblocks as <-. exact Hrun.
Defined.

(** ** The errors of the library *)



Section LibraryErrors.

Context {host : Host}.




End LibraryErrors.

Section OnlyError.

Context {V Id : Type} `{VariantLike V Id}.
Context {host : Host}.


End OnlyError.



(** A [null] entry in [content.variants] makes [resolveBlogPostVariant] raise
    a TypeError on reading [id] from it: the blog resolver does not filter
    its entries as the tree resolver does. *)
Lemma resolveBlogPostVariant_null_entry_TypeError :
  let post := [("multivariate", VBool true); ("variants", VArr [VNull])] in
  resolveBlogPostVariant (host := exampleHost) post 0 = (post, Throw (TypeError "id"))
  /\ TypeError "id" <> empty_variants_error.
Proof. split; [vm_compute; reflexivity|discriminate]. Qed.

(** The conversions of the example host on records and arrays, and the two
    resolvers on a variant whose [weight] has no primitive value. *)
Example conversions_on_records :
  let shadowed := VObj [("toString", VNum 0)] in
  exampleString shadowed = Throw no_primitive_value
  /\ exampleNumber shadowed = Throw no_primitive_value
  /\ exampleString (VObj []) = Ok "[object Object]"
  /\ exampleNumber (VArr []) = Ok 0%float
  /\ exampleString (VArr [VNum 1; VNull; VStr "a"]) = Ok "1,,a"
  /\ exampleString (VArr [shadowed]) = Throw no_primitive_value.
Proof. repeat split; reflexivity. Qed.

Example conversion_throws_before_later_blocks :
  let shadowed := VObj [("toString", VNum 0)] in
  let variant := VObj [("id", VStr "a"); ("weight", shadowed); ("blocks", VArr [])] in
  let post := [("multivariate", VBool true); ("variants", VArr [variant])] in
  let form (variants : list value) :=
    VObj [("type", VStr "form");
          ("data", VObj [("multivariate", VBool true); ("variants", VArr variants)])] in
  let section :=
    VObj [("type", VStr "section");
          ("config", VObj [("children", VArr [form [variant]; form [VStr "x"]])])] in
  resolveBlogPostVariant (host := exampleHost) post 0 = (post, Throw no_primitive_value)
  /\ resolveFormVariantsInSections (host := exampleHost) (VArr [section]) 0
     = Throw no_primitive_value.
Proof. split; reflexivity. Qed.

(** * Further properties *)

(** ** More facts about binary64 comparisons *)

Section FloatOrder.

Open Scope float_scope.

Lemma ltb_nan_l (x : float) : (nan <? x) = false.
Proof. rewrite ltb_spec. reflexivity. Qed.

Lemma ltb_infinity_l (x : float) : (infinity <? x) = false.
Proof.
  rewrite ltb_spec. change (Prim2SF infinity) with (S754_infinity false).
  unfold SFltb. destruct (Prim2SF x) as [s|s| |s m e]; try reflexivity;
    destruct s; reflexivity.
Qed.

Lemma SFcompare_le_lt_trans (x y z : spec_float) :
  SFleb x y = true -> SFltb y z = true -> SFltb x z = true.
Proof.
  unfold SFleb, SFltb.
  destruct x as [sx|sx| |sx mx ex], y as [sy|sy| |sy my ey], z as [sz|sz| |sz mz ez];
    simpl; try discriminate; try reflexivity;
    try (destruct sx; try discriminate; try reflexivity);
    try (destruct sy; try discriminate; try reflexivity);
    try (destruct sz; try discriminate; try reflexivity).
  all: change (PosDef.Pos.compare_cont Eq ?a ?b) with (Pos.compare a b).
  all: destruct (Z.compare_spec ex ey), (Z.compare_spec ey ez), (Z.compare_spec ex ez);
    simpl; try discriminate; try reflexivity; try lia; subst.
  all: destruct (Pos.compare_spec mx my), (Pos.compare_spec my mz), (Pos.compare_spec mx mz);
    simpl; try discriminate; try reflexivity; try lia.
Qed.

Lemma leb_ltb_trans (a b c : float) :
  (a <=? b) = true -> (b <? c) = true -> (a <? c) = true.
Proof. rewrite leb_spec, !ltb_spec. apply SFcompare_le_lt_trans. Qed.

End FloatOrder.

(** ** Searching the positions of a list *)

Lemma find_seq_first (p : nat -> bool) (n a k : nat) :
  find p (seq a n) = Some k ->
  p k = true /\ a <= k < a + n /\ forall j, a <= j < k -> p j = false.
Proof.
  revert a. induction n as [|n IH]; intros a; simpl; [discriminate|].
  destruct (p a) eqn:Ea.
  - intros [= <-]. repeat split; try lia. exact Ea.
  - intros Hrest. destruct (IH (S a) Hrest) as (Hk & Hrange & Hbefore).
    repeat split; try lia; [exact Hk|].
    intros j Hj. destruct (Nat.eq_dec j a) as [->|Hne]; [exact Ea|].
    apply Hbefore. lia.
Qed.

Lemma find_seq_none (p : nat -> bool) (n a : nat) :
  find p (seq a n) = None -> forall j, a <= j < a + n -> p j = false.
Proof.
  intros Hnone j Hj. apply (find_none p (seq a n) Hnone). apply in_seq. lia.
Qed.

Lemma find_seq_exists (p : nat -> bool) (n a k : nat) :
  a <= k < a + n -> p k = true ->
  exists k', find p (seq a n) = Some k' /\ k' <= k.
Proof.
  intros Hk Hp. destruct (find p (seq a n)) as [k'|] eqn:E.
  - exists k'. split; [reflexivity|].
    destruct (@find_seq_first p n a k' E) as (_ & _ & Hbefore).
    destruct (Nat.le_gt_cases k' k) as [Hle|Hgt]; [exact Hle|].
    rewrite Hbefore in Hp by lia. discriminate.
  - rewrite (@find_seq_none p n a E k Hk) in Hp. discriminate.
Qed.

(** ** The selector: positions, members, out-of-range buckets *)

Section SelectorMore.

Context {V Id : Type} `{VariantLike V Id}.

(** [selectVariant] returns the id found at [selectedPosition]. *)
Lemma selectVariant_at_selectedPosition (bucket : float) (variants : list V) :
  variants <> [] ->
  exists v, nth_error variants (selectedPosition bucket variants) = Some v /\
            selectVariant bucket variants = Ok (id v).
Proof.
  intros Hne. unfold selectedPosition.
  destruct (selectVariant_scan bucket Hne)
    as [(k & v & Hv & Hlt & Hbefore & Hsel) | (Hall & v & Hv & Hsel)].
  - assert (Hk : 0 <= k < 0 + List.length variants)
      by (split; [lia|apply nth_error_Some; congruence]).
    destruct (find_seq_exists
                (fun k => (bucket <? cumulativeUpTo variants k)%float) _ Hk Hlt)
      as (k' & Hfind & Hle).
    rewrite Hfind.
    destruct (find_seq_first _ _ _ Hfind) as (Hk' & _ & _).
    destruct (Nat.eq_dec k' k) as [->|Hneq]; [exists v; auto|].
    rewrite Hbefore in Hk' by lia. discriminate.
  - destruct (find _ (seq 0 (List.length variants))) as [k|] eqn:Hfind.
    + destruct (find_seq_first _ _ _ Hfind) as (Hk & Hrange & _).
      rewrite Hall in Hk by lia. discriminate.
    + exists v. auto.
Qed.

Lemma selectVariant_member (bucket : float) (variants : list V) :
  variants <> [] ->
  exists v, In v variants /\ selectVariant bucket variants = Ok (id v).
Proof.
  intros Hne.
  destruct (selectVariant_scan bucket Hne)
    as [(k & v & Hv & _ & _ & Hsel) | (_ & v & Hv & Hsel)];
    exists v; split; try exact Hsel; exact (nth_error_In _ _ Hv).
Qed.

(** X1. A one-element list returns its element's id for every bucket and
    every weight: whether or not the comparison succeeds, the loop's return
    and the fallback give the same id. *)
Theorem selectVariant_single (bucket : float) (v : V) :
  selectVariant bucket [v] = Ok (id v).
Proof.
  unfold selectVariant. simpl.
  destruct (bucket <? 0 + weight v / totalWeight [v])%float; reflexivity.
Qed.

(** X2. On a non-empty list [selectVariant] never throws and never invents
    an id: it returns the id of a member of the list. *)
Theorem selectVariant_returns_member (bucket : float) (variants : list V) :
  variants <> [] ->
  exists v, In v variants /\ selectVariant bucket variants = Ok (id v).
Proof.
  intros Hne.
  destruct (selectVariant_at_selectedPosition bucket Hne) as (v & Hv & Hsel).
  exists v. split; [exact (nth_error_In _ _ Hv)|exact Hsel].
Qed.

Lemma selectLoop_never_below (bucket total cumulative : float) (variants : list V) :
  (forall x, (bucket <? x)%float = false) ->
  selectLoop bucket total cumulative variants = None.
Proof.
  intros Hnever. revert cumulative.
  induction variants as [|x rest IH]; intros cumulative; simpl; [reflexivity|].
  rewrite Hnever. apply IH.
Qed.

(** X3. A bucket that is NaN or +Infinity is below no cumulative weight: on
    a non-empty list the loop falls through and the last variant's id is
    returned, whatever the weights. *)
Theorem selectVariant_unordered_bucket (bucket : float) (variants : list V) :
  variants <> [] ->
  bucket = nan \/ bucket = infinity ->
  exists v, nth_error variants (List.length variants - 1) = Some v /\
            selectVariant bucket variants = Ok (id v).
Proof.
  intros Hne Hbucket.
  assert (Hnever : forall x, (bucket <? x)%float = false).
  { intros x. destruct Hbucket as [-> | ->];
      [apply ltb_nan_l|apply ltb_infinity_l]. }
  destruct (nth_error_last_nonempty Hne) as [v Hv].
  exists v. split; [exact Hv|].
  rewrite (selectVariant_nonempty bucket Hne).
  rewrite (selectLoop_never_below _ _ _ Hnever), Hv. reflexivity.
Qed.

(** X4. Selection is monotone in the bucket: for [b1 <= b2] the position
    selected for [b1] is not after the one selected for [b2], whatever the
    weights; and each call returns the id found at its position. *)
Theorem selectVariant_monotone (b1 b2 : float) (variants : list V) :
  variants <> [] ->
  (b1 <=? b2)%float = true ->
  selectedPosition b1 variants <= selectedPosition b2 variants
  /\ (exists v1, nth_error variants (selectedPosition b1 variants) = Some v1 /\
                 selectVariant b1 variants = Ok (id v1))
  /\ (exists v2, nth_error variants (selectedPosition b2 variants) = Some v2 /\
                 selectVariant b2 variants = Ok (id v2)).
Proof.
  intros Hne Hle.
  split; [|split; apply selectVariant_at_selectedPosition; exact Hne].
  unfold selectedPosition.
  destruct (find (fun k => (b2 <? cumulativeUpTo variants k)%float)
                 (seq 0 (List.length variants))) as [k2|] eqn:H2.
  - destruct (find_seq_first _ _ _ H2) as (Hk2 & Hrange & _).
    destruct (find_seq_exists
                (fun k => (b1 <? cumulativeUpTo variants k)%float) _ Hrange
                (@leb_ltb_trans _ _ _ Hle Hk2)) as (k1 & -> & Hk1).
    exact Hk1.
  - destruct (find (fun k => (b1 <? cumulativeUpTo variants k)%float)
                   (seq 0 (List.length variants))) as [k1|] eqn:H1; [|lia].
    destruct (find_seq_first _ _ _ H1) as (_ & Hrange & _). lia.
Qed.

End SelectorMore.

Lemma selectVariant_returns_member_witness :
  let variants := [mkConfig "a" 1; mkConfig "b" 2; mkConfig "c" 3] in
  variants <> []
  /\ exists v, In v variants /\ selectVariant 0.5 variants = Ok (id v).
Proof.
  intros variants.
  assert (Hne : variants <> []) by discriminate.
  split; [exact Hne|exact (selectVariant_returns_member 0.5 Hne)].
Defined.

Lemma selectVariant_unordered_bucket_witness :
  let variants := [mkConfig "a" 50; mkConfig "b" 50] in
  variants <> [] /\ selectVariant nan variants = Ok "b".
Proof.
  intros variants.
  assert (Hne : variants <> []) by discriminate.
  split; [exact Hne|].
  destruct (selectVariant_unordered_bucket Hne (or_introl eq_refl))
    as (v & Hv & Hsel).
  simpl in Hv. injection Hv as <-. exact Hsel.
Defined.

Lemma selectVariant_monotone_witness :
  let variants := [mkConfig "a" 1; mkConfig "b" 2; mkConfig "c" 3] in
  variants <> [] /\ (0.25 <=? 0.75)%float = true
  /\ selectedPosition 0.25%float variants <= selectedPosition 0.75%float variants.
Proof.
  intros variants.
  assert (Hne : variants <> []) by discriminate.
  split; [exact Hne|]. split; [reflexivity|].
  exact (proj1 (@selectVariant_monotone _ _ _ 0.25%float 0.75%float variants Hne eq_refl)).
Defined.

(** ** The page resolver on non-empty content *)

(** X5. On a non-empty variant list [resolvePageVariant] never throws, and
    what it returns is a variant of the list: its sections together with
    either a [variantId] strictly equal to that variant's id (lookup
    succeeded) or that variant's own id (fallback). *)
Theorem resolvePageVariant_returns_member (content : MultivariateContent)
  (bucket : float) :
  variants content <> [] ->
  exists v chosen,
    In v (variants content) /\
    resolvePageVariant content bucket = Ok (mkResolution (page_sections v) chosen) /\
    (strictEqPrim (id v) chosen = true \/ chosen = id v).
Proof.
  intros Hne. unfold resolvePageVariant, bind.
  destruct (selectVariant_member bucket Hne) as (picked & _ & ->).
  destruct (find (fun v => strictEqPrim (id v) (id picked)) (variants content))
    as [selected|] eqn:Hfind.
  - destruct (find_some _ _ Hfind) as [Hin Heq].
    exists selected, (id picked). auto.
  - destruct (variants content) as [|first rest]; [congruence|].
    exists first, (id first). simpl. auto.
Qed.

(** X6. When the selected variant's id equals itself (it is not NaN) and no
    other variant of the list has a strictly equal id, [resolvePageVariant]
    returns that very variant: its sections and its id. *)
Theorem resolvePageVariant_distinct_ids (content : MultivariateContent)
  (bucket : float) (v : PageVariant) :
  In v (variants content) ->
  selectVariant bucket (variants content) = Ok (id v) ->
  strictEqPrim (id v) (id v) = true ->
  (forall u, In u (variants content) -> strictEqPrim (id u) (id v) = true -> u = v) ->
  resolvePageVariant content bucket = Ok (mkResolution (page_sections v) (id v)).
Proof.
  intros Hin Hsel Hrefl Hunique. unfold resolvePageVariant, bind. rewrite Hsel.
  destruct (find (fun u => strictEqPrim (id u) (id v)) (variants content))
    as [selected|] eqn:Hfind.
  - destruct (find_some _ _ Hfind) as [Hmember Heq].
    now rewrite (Hunique selected Hmember Heq).
  - rewrite (find_none _ _ Hfind v Hin) in Hrefl. discriminate.
Qed.

Lemma resolvePageVariant_returns_member_witness :
  let content := mkContent [mkPageVariant (PStr "a") 50 (VStr "A");
                            mkPageVariant (PStr "b") 50 (VStr "B")] in
  variants content <> []
  /\ exists v chosen,
       In v (variants content) /\
       resolvePageVariant content 0.75 = Ok (mkResolution (page_sections v) chosen) /\
       (strictEqPrim (id v) chosen = true \/ chosen = id v).
Proof.
  intros content.
  assert (Hne : variants content <> []) by discriminate.
  split; [exact Hne|exact (resolvePageVariant_returns_member content 0.75 Hne)].
Defined.

Lemma resolvePageVariant_distinct_ids_witness :
  let b := mkPageVariant (PStr "b") 50 (VStr "B") in
  let content := mkContent [mkPageVariant (PStr "a") 50 (VStr "A"); b] in
  resolvePageVariant content 0.75 = Ok (mkResolution (VStr "B") (PStr "b")).
Proof.
  intros b content.
  apply (@resolvePageVariant_distinct_ids content 0.75%float b).
  - right. now left.
  - reflexivity.
  - reflexivity.
  - intros u [<-|[<-|[]]] Heq; [discriminate Heq|reflexivity].
Defined.

(** ** Records: what assignment and deletion keep *)

Lemma lookup_set_same (k : string) (v : value) (o : obj) :
  lookup k (set k v o) = Some v.
Proof.
  induction o as [|[k' v'] rest IH]; simpl.
  - now rewrite String.eqb_refl.
  - destruct (String.eqb k' k) eqn:E; simpl.
    + now rewrite String.eqb_refl.
    + now rewrite E.
Qed.

Lemma lookup_set_other (k k' : string) (v : value) (o : obj) :
  k' <> k -> lookup k' (set k v o) = lookup k' o.
Proof.
  intros Hne. induction o as [|[k0 v0] rest IH]; simpl.
  - destruct (String.eqb k k') eqn:E; [|reflexivity].
    apply String.eqb_eq in E. congruence.
  - destruct (String.eqb k0 k) eqn:E; simpl.
    + apply String.eqb_eq in E. subst k0.
      destruct (String.eqb k k') eqn:E'; [|reflexivity].
      apply String.eqb_eq in E'. congruence.
    + now rewrite IH.
Qed.

Lemma lookup_delete_other (k k' : string) (o : obj) :
  k <> k' -> lookup k (delete k' o) = lookup k o.
Proof.
  intros Hne. rewrite lookup_delete.
  destruct (String.eqb k k') eqn:E; [|reflexivity].
  apply String.eqb_eq in E. congruence.
Qed.

(** ** The blog post resolver: what a call leaves behind *)

Section BlogMore.

Context {host : Host}.

(** The two ways a call returns: the guard stops it and the record is as it
    was, or the clean-up has run on the record, with or without a [blocks]
    assignment before it. *)
Lemma resolveBlogPostVariant_returns (content content' : obj) (bucket : float) :
  resolveBlogPostVariant content bucket = (content', Ok tt) ->
  (content' = content /\
   (truthy (field "multivariate" content) = false
    \/ isArray (field "variants" content) = false))
  \/ (exists inner,
        content' = delete "variants" (delete "multivariate" inner) /\
        (inner = content \/ exists blocks, inner = set "blocks" blocks content)).
Proof.
  intros Hrun.
  destruct (truthy (field "multivariate" content)) eqn:Hmulti.
  2:{ rewrite resolveBlogPostVariant_guard in Hrun by now left.
      injection Hrun as <-. left. auto. }
  destruct (field "variants" content) as [p|variants|o] eqn:Hvariants.
  1,3: rewrite resolveBlogPostVariant_guard in Hrun
         by (right; rewrite Hvariants; reflexivity);
       injection Hrun as <-; left; auto.
  right.
  rewrite (resolveBlogPostVariant_active content bucket Hmulti Hvariants) in Hrun.
  destruct (mapM toConfig variants) as [variantConfigs|e]; [|discriminate].
  destruct (selectVariant bucket variantConfigs) as [selectedId|e]; [|discriminate].
  destruct (findM (hasId selectedId) variants) as [selectedVariant|e]; [|discriminate].
  cbv zeta in Hrun.
  destruct (match selectedVariant with
            | Some selected =>
                if truthy selected then Some selected else hd_error variants
            | None => hd_error variants
            end) as [variant|].
  - destruct (get variant "blocks") as [blocks|e]; [|discriminate].
    injection Hrun as <-. eexists. split; [reflexivity|]. right. now exists blocks.
  - injection Hrun as <-. eexists. split; [reflexivity|]. now left.
Qed.

(** X7. A call that throws leaves the content record exactly as it was: all
    reads that can throw come before the first assignment. *)
Theorem resolveBlogPostVariant_throw_untouched (content content' : obj)
  (bucket : float) (e : error) :
  resolveBlogPostVariant content bucket = (content', Throw e) ->
  content' = content.
Proof.
  intros Hrun.
  destruct (truthy (field "multivariate" content)) eqn:Hmulti.
  2:{ rewrite resolveBlogPostVariant_guard in Hrun by now left. discriminate. }
  destruct (field "variants" content) as [p|variants|o] eqn:Hvariants.
  1,3: rewrite resolveBlogPostVariant_guard in Hrun
         by (right; rewrite Hvariants; reflexivity); discriminate.
  rewrite (resolveBlogPostVariant_active content bucket Hmulti Hvariants) in Hrun.
  destruct (mapM toConfig variants) as [variantConfigs|e0];
    [|now injection Hrun as <- _].
  destruct (selectVariant bucket variantConfigs) as [selectedId|e0];
    [|now injection Hrun as <- _].
  destruct (findM (hasId selectedId) variants) as [selectedVariant|e0];
    [|now injection Hrun as <- _].
  cbv zeta in Hrun.
  destruct (match selectedVariant with
            | Some selected =>
                if truthy selected then Some selected else hd_error variants
            | None => hd_error variants
            end) as [variant|]; [|discriminate].
  destruct (get variant "blocks") as [blocks|e0]; [discriminate|].
  now injection Hrun as <- _.
Qed.

(** X9. A call that returns leaves every key other than [blocks],
    [multivariate] and [variants] with the value it had. *)
Theorem resolveBlogPostVariant_frame (content content' : obj) (bucket : float)
  (k : string) :
  resolveBlogPostVariant content bucket = (content', Ok tt) ->
  k <> "blocks" -> k <> "multivariate" -> k <> "variants" ->
  lookup k content' = lookup k content.
Proof.
  intros Hrun Hb Hm Hv.
  destruct (resolveBlogPostVariant_returns _ _ Hrun)
    as [[-> _] | (inner & -> & Hinner)]; [reflexivity|].
  rewrite !lookup_delete_other by assumption.
  destruct Hinner as [-> | [blocks ->]]; [reflexivity|].
  now apply lookup_set_other.
Qed.

(** X10. Resolving twice is resolving once: after a call that returns, a
    second call, with any bucket, returns at once and changes nothing. *)
Theorem resolveBlogPostVariant_second_call_noop (content content' : obj)
  (bucket bucket' : float) :
  resolveBlogPostVariant content bucket = (content', Ok tt) ->
  resolveBlogPostVariant content' bucket' = (content', Ok tt).
Proof.
  intros Hrun. apply resolveBlogPostVariant_guard.
  destruct (resolveBlogPostVariant_returns _ _ Hrun)
    as [[-> Hguard] | (inner & -> & _)]; [exact Hguard|].
  left. unfold field.
  rewrite lookup_delete_other by discriminate.
  rewrite lookup_delete. reflexivity.
Qed.

(** X11. After a call that returns, on either path, the record is not
    multivariate content in the sense of [isMultivariateContent]. *)
Theorem resolveBlogPostVariant_not_multivariate_after (content content' : obj)
  (bucket : float) :
  resolveBlogPostVariant content bucket = (content', Ok tt) ->
  isMultivariateContent content' = false.
Proof.
  intros Hrun. unfold isMultivariateContent.
  destruct (resolveBlogPostVariant_returns _ _ Hrun)
    as [[-> [Hfalsy | Hnotarray]] | (inner & -> & _)].
  - destruct (field "multivariate" content) as [[| |[|]|n|s]|items|o];
      try reflexivity. discriminate Hfalsy.
  - rewrite Hnotarray. apply andb_false_r.
  - unfold field at 1. rewrite lookup_delete_other by discriminate.
    rewrite lookup_delete. reflexivity.
Qed.

End BlogMore.

(** ** The blog post resolver on well-formed variants *)

Lemma mapM_Ok_Forall2 {A B : Type} (f : A -> result B) (xs : list A) (ys : list B) :
  mapM f xs = Ok ys -> Forall2 (fun x y => f x = Ok y) xs ys.
Proof.
  revert ys. induction xs as [|x rest IH]; intros ys; simpl.
  - intros [= <-]. constructor.
  - destruct (f x) as [y|e] eqn:Ex; [|discriminate].
    destruct (mapM f rest) as [ys'|e]; [|discriminate].
    intros [= <-]. constructor; auto.
Qed.

Lemma Forall2_In_r {A B : Type} (R : A -> B -> Prop) (xs : list A) (ys : list B) (y : B) :
  Forall2 R xs ys -> In y ys -> exists x, In x xs /\ R x y.
Proof.
  induction 1 as [|x y' xs ys Hxy _ IH]; simpl; [contradiction|].
  intros [<-|Hin].
  - exists x. auto.
  - destruct (IH Hin) as (x' & Hx' & HR). exists x'. auto.
Qed.

Lemma mapM_total {A B : Type} (f : A -> result B) (xs : list A) :
  (forall x, In x xs -> exists y, f x = Ok y) ->
  exists ys, mapM f xs = Ok ys /\ List.length ys = List.length xs.
Proof.
  induction xs as [|x rest IH]; intros Hall; simpl.
  - exists []. auto.
  - destruct (Hall x (or_introl eq_refl)) as [y ->].
    destruct IH as (ys & -> & Hlen); [intros z Hz; apply Hall; now right|].
    exists (y :: ys). simpl. auto.
Qed.

(** [find] with a predicate that does not throw on the list. *)
Lemma findM_total {A : Type} (p : A -> result bool) (xs : list A) :
  (forall x, In x xs -> exists b, p x = Ok b) ->
  (exists x, findM p xs = Ok (Some x) /\ In x xs /\ p x = Ok true)
  \/ (findM p xs = Ok None /\ forall x, In x xs -> p x = Ok false).
Proof.
  induction xs as [|x rest IH]; intros Hall; simpl.
  - right. split; [reflexivity|contradiction].
  - destruct (Hall x (or_introl eq_refl)) as [[|] Hx]; rewrite Hx.
    + left. exists x. auto.
    + destruct IH as [(y & Hy & Hin & Hp) | [Hnone Hfalse]];
        [intros z Hz; apply Hall; now right| |].
      * left. exists y. auto.
      * right. split; [exact Hnone|]. intros z [<-|Hz]; auto.
Qed.

Section BlogWellFormed.

Context {host : Host}.

Lemma hasId_defined (selectedId : string) (v : value) :
  v <> VUndefined -> v <> VNull -> exists b, hasId selectedId v = Ok b.
Proof.
  intros Hu Hn. unfold hasId.
  destruct (get_defined "id" Hu Hn) as [i ->]. simpl. eexists. reflexivity.
Qed.

(** A record whose [id] is a string and whose [weight] is a number, under a
    host that returns strings and numbers unchanged. *)
Lemma toConfig_well_formed (o : obj) (s : string) (n : float) :
  (forall s, js_String (VStr s) = Ok s) ->
  (forall n, js_Number (VNum n) = Ok n) ->
  field "id" o = VStr s -> field "weight" o = VNum n ->
  toConfig (VObj o) = Ok (mkConfig s n).
Proof.
  intros Hstring Hnumber Hid Hweight.
  rewrite toConfig_record, Hid, Hweight, Hstring, Hnumber. reflexivity.
Qed.

(** X8. With [multivariate] truthy and a non-empty [variants] array whose
    entries are all coerced without a throw (none is [null] or [undefined],
    and [String] and [Number] return on every id and weight), the call
    returns: it installs under [blocks] the blocks of one of the variants
    and removes the two multivariate keys. *)
Theorem resolveBlogPostVariant_installs_blocks (content : obj) (bucket : float)
  (variants : list value) (variantConfigs : list VariantConfig) :
  truthy (field "multivariate" content) = true ->
  field "variants" content = VArr variants ->
  variants <> [] ->
  mapM toConfig variants = Ok variantConfigs ->
  exists v blocks content',
    In v variants /\ get v "blocks" = Ok blocks /\
    resolveBlogPostVariant content bucket = (content', Ok tt) /\
    content' = delete "variants" (delete "multivariate" (set "blocks" blocks content)) /\
    field "blocks" content' = blocks.
Proof.
  intros Hmulti Hvariants Hne Hcoerced.
  assert (Hdefined : forall v, In v variants -> v <> VUndefined /\ v <> VNull)
    by (intros v Hv; exact (mapM_toConfig_defined _ v Hcoerced Hv)).
  rewrite (resolveBlogPostVariant_active content bucket Hmulti Hvariants).
  rewrite Hcoerced.
  assert (Hconfigs : variantConfigs <> []).
  { pose proof (Forall2_length (mapM_Ok_Forall2 _ _ Hcoerced)) as Hlen.
    destruct variantConfigs; [|discriminate].
    destruct variants; [congruence|discriminate]. }
  destruct (selectVariant_member bucket Hconfigs) as (c & _ & ->).
  assert (Hchosen : exists v, In v variants /\
            forall found, findM (hasId (id c)) variants = Ok found ->
              match found with
              | Some selected =>
                  if truthy selected then Some selected else hd_error variants
              | None => hd_error variants
              end = Some v).
  { destruct variants as [|first rest]; [congruence|].
    destruct (findM (hasId (id c)) (first :: rest)) as [[selected|]|e] eqn:Efind.
    - destruct (truthy selected) eqn:Etruthy.
      + exists selected. split; [exact (findM_Some_In _ _ Efind)|].
        intros found [= <-]. now rewrite Etruthy.
      + exists first. split; [now left|].
        intros found [= <-]. now rewrite Etruthy.
    - exists first. split; [now left|]. now intros found [= <-].
    - exists first. split; [now left|]. discriminate. }
  destruct Hchosen as (v & Hin & Hchosen).
  destruct (findM_total (hasId (id c)) variants) as [(x & Hfind & _) | [Hfind _]].
  { intros x Hx. destruct (Hdefined x Hx). now apply hasId_defined. }
  all: rewrite Hfind; cbv zeta; rewrite (Hchosen _ Hfind).
  all: destruct (Hdefined v Hin) as [Hu Hn];
    destruct (get_defined "blocks" Hu Hn) as [blocks Hblocks]; rewrite Hblocks;
    exists v, blocks; eexists; repeat split; try eassumption;
    unfold field; rewrite !lookup_delete_other by discriminate;
    now rewrite lookup_set_same.
Qed.

(** X12. With well-formed variants (records whose [id] is a string and
    whose [weight] is a number) and a host whose [String] and [Number]
    return strings and numbers unchanged, the lookup always succeeds: the
    call returns with the blocks of a variant whose id is the id the selector
    chose; the first-variant fallback is not taken. *)
Theorem resolveBlogPostVariant_well_formed (content : obj) (bucket : float)
  (variants : list value) :
  (forall s, js_String (VStr s) = Ok s) ->
  (forall n, js_Number (VNum n) = Ok n) ->
  truthy (field "multivariate" content) = true ->
  field "variants" content = VArr variants ->
  variants <> [] ->
  (forall v, In v variants ->
     exists o s n, v = VObj o /\ field "id" o = VStr s /\ field "weight" o = VNum n) ->
  exists variantConfigs selectedId o,
    mapM toConfig variants = Ok variantConfigs /\
    selectVariant bucket variantConfigs = Ok selectedId /\
    findM (hasId selectedId) variants = Ok (Some (VObj o)) /\
    In (VObj o) variants /\ field "id" o = VStr selectedId /\
    resolveBlogPostVariant content bucket
    = (delete "variants"
         (delete "multivariate" (set "blocks" (field "blocks" o) content)),
       Ok tt).
Proof.
  intros Hstring Hnumber Hmulti Hvariants Hne Hformed.
  rewrite (resolveBlogPostVariant_active content bucket Hmulti Hvariants).
  destruct (mapM_total toConfig variants) as (configs & Hconfigs & Hlen).
  { intros v Hv. destruct (Hformed v Hv) as (o & s & n & -> & Hid & Hweight).
    eexists. exact (toConfig_well_formed o Hstring Hnumber Hid Hweight). }
  assert (Hnonempty : configs <> []).
  { destruct configs; [|discriminate]. destruct variants; [congruence|discriminate]. }
  destruct (selectVariant_member bucket Hnonempty) as (c & Hc & Hsel).
  destruct (@Forall2_In_r _ _ _ _ _ c (mapM_Ok_Forall2 _ _ Hconfigs) Hc)
    as (v & Hv & Hvc).
  destruct (Hformed v Hv) as (o & s & n & -> & Hid & Hweight).
  rewrite (toConfig_well_formed o Hstring Hnumber Hid Hweight) in Hvc.
  injection Hvc as <-. simpl in Hsel.
  destruct (findM_total (hasId s) variants) as [(x & Hfind & Hx & Hp) | [_ Hfalse]].
  { intros x Hx. destruct (Hformed x Hx) as (o' & s' & n' & -> & _ & _).
    eexists. reflexivity. }
  - destruct (Hformed x Hx) as (o' & s' & n' & -> & Hid' & _).
    unfold hasId in Hp. simpl in Hp. rewrite Hid' in Hp. simpl in Hp.
    injection Hp as Hp. apply String.eqb_eq in Hp. subst s'.
    exists configs, s, o'. rewrite Hconfigs, Hsel, Hfind. cbv zeta. simpl.
    repeat split; auto.
  - specialize (Hfalse _ Hv). unfold hasId in Hfalse. simpl in Hfalse.
    rewrite Hid in Hfalse. simpl in Hfalse. rewrite String.eqb_refl in Hfalse.
    discriminate.
Qed.

End BlogWellFormed.

(** The post of the repository's tests, with its shared [layout]. *)
Example blog_example_run :
  let blocksA := VArr [VObj [("type", VStr "block-a")]] in
  let blocksB := VArr [VObj [("type", VStr "block-b")]] in
  let layout := VObj [("header", VStr "shared")] in
  let post := [("layout", layout); ("multivariate", VBool true);
               ("variants", VArr [VObj [("id", VStr "a"); ("weight", VNum 50);
                                        ("blocks", blocksA)];
                                  VObj [("id", VStr "b"); ("weight", VNum 50);
                                        ("blocks", blocksB)]])] in
  resolveBlogPostVariant (host := exampleHost) post 0.75
  = ([("layout", layout); ("blocks", blocksB)], Ok tt).
Proof. reflexivity. Qed.

Lemma resolveBlogPostVariant_throw_untouched_witness :
  let post := [("multivariate", VBool true); ("variants", VArr [VNull])] in
  resolveBlogPostVariant (host := exampleHost) post 0 = (post, Throw (TypeError "id"))
  /\ post = post.
Proof.
  intros post.
  assert (Hrun : resolveBlogPostVariant (host := exampleHost) post 0
                 = (post, Throw (TypeError "id"))) by reflexivity.
  split; [exact Hrun|].
  exact (@resolveBlogPostVariant_throw_untouched exampleHost post post 0%float _ Hrun).
Defined.

Lemma resolveBlogPostVariant_frame_witness :
  let layout := VObj [("header", VStr "shared")] in
  let post := [("layout", layout); ("multivariate", VBool true);
               ("variants", VArr [VObj [("id", VStr "a"); ("weight", VNum 100);
                                        ("blocks", VArr [])]])] in
  lookup "layout" [("layout", layout); ("blocks", VArr [])] = lookup "layout" post.
Proof.
  intros layout post.
  apply (@resolveBlogPostVariant_frame exampleHost post _ 0%float "layout");
    [reflexivity|discriminate|discriminate|discriminate].
Defined.

Lemma resolveBlogPostVariant_second_call_noop_witness :
  let post := [("multivariate", VBool true);
               ("variants", VArr [VObj [("id", VStr "a"); ("weight", VNum 100);
                                        ("blocks", VArr [])]])] in
  resolveBlogPostVariant (host := exampleHost) [("blocks", VArr [])] 0.5
  = ([("blocks", VArr [])], Ok tt).
Proof.
  intros post.
  apply (@resolveBlogPostVariant_second_call_noop exampleHost post _ 0%float 0.5%float).
  reflexivity.
Defined.

Lemma resolveBlogPostVariant_not_multivariate_after_witness :
  let post := [("multivariate", VBool true);
               ("variants", VArr [VObj [("id", VStr "a"); ("weight", VNum 100);
                                        ("blocks", VArr [])]])] in
  isMultivariateContent post = true
  /\ isMultivariateContent [("blocks", VArr [])] = false.
Proof.
  intros post. split; [reflexivity|].
  apply (@resolveBlogPostVariant_not_multivariate_after exampleHost post _ 0%float).
  reflexivity.
Defined.

Lemma resolveBlogPostVariant_installs_blocks_witness :
  let post := [("multivariate", VBool true);
               ("variants", VArr [VObj [("id", VNum 123); ("weight", VNum 100);
                                        ("blocks", VStr "fallback-block")]])] in
  exists v blocks content',
    In v [VObj [("id", VNum 123); ("weight", VNum 100);
                ("blocks", VStr "fallback-block")]] /\
    get v "blocks" = Ok blocks /\
    resolveBlogPostVariant (host := exampleHost) post 0 = (content', Ok tt) /\
    content' = delete "variants" (delete "multivariate" (set "blocks" blocks post)) /\
    field "blocks" content' = blocks.
Proof.
  intros post.
  apply (@resolveBlogPostVariant_installs_blocks exampleHost post 0%float
           [VObj [("id", VNum 123); ("weight", VNum 100);
                  ("blocks", VStr "fallback-block")]]
           [mkConfig "123" 100]);
    [reflexivity|reflexivity|discriminate|reflexivity].
Defined.

Lemma resolveBlogPostVariant_well_formed_witness :
  let a := [("id", VStr "a"); ("weight", VNum 50); ("blocks", VStr "A")] in
  let b := [("id", VStr "b"); ("weight", VNum 50); ("blocks", VStr "B")] in
  let post := [("multivariate", VBool true); ("variants", VArr [VObj a; VObj b])] in
  exists variantConfigs selectedId o,
    mapM (toConfig (host := exampleHost)) [VObj a; VObj b] = Ok variantConfigs /\
    selectVariant 0.75 variantConfigs = Ok selectedId /\
    findM (hasId selectedId) [VObj a; VObj b] = Ok (Some (VObj o)) /\
    In (VObj o) [VObj a; VObj b] /\ field "id" o = VStr selectedId /\
    resolveBlogPostVariant (host := exampleHost) post 0.75
    = (delete "variants"
         (delete "multivariate" (set "blocks" (field "blocks" o) post)),
       Ok tt).
Proof.
  intros a b post.
  apply (@resolveBlogPostVariant_well_formed exampleHost post 0.75%float);
    [reflexivity|reflexivity|reflexivity|reflexivity|discriminate|].
  intros v [<-|[<-|[]]]; [exists a, "a", 50%float|exists b, "b", 50%float];
    repeat split; reflexivity.
Defined.

(** ** Records: assignment to an existing key *)

Lemma set_same (k : string) (v : value) (o : obj) :
  lookup k o = Some v -> set k v o = o.
Proof.
  induction o as [|[k' v'] rest IH]; simpl; [discriminate|].
  destruct (String.eqb k' k) eqn:E.
  - apply String.eqb_eq in E. subst k'. now intros [= ->].
  - intros Hl. now rewrite IH.
Qed.

Lemma set_set (k : string) (v v' : value) (o : obj) :
  set k v (set k v' o) = set k v o.
Proof.
  induction o as [|[k0 v0] rest IH]; simpl.
  - now rewrite String.eqb_refl.
  - destruct (String.eqb k0 k) eqn:E; simpl.
    + now rewrite String.eqb_refl.
    + now rewrite E, IH.
Qed.

Lemma keys_set (k : string) (v : value) (o : obj) :
  hasKey k o = true -> keys (set k v o) = keys o.
Proof.
  unfold hasKey, keys. induction o as [|[k' v'] rest IH]; simpl; [discriminate|].
  destruct (String.eqb k' k) eqn:E; simpl.
  - apply String.eqb_eq in E. now subst k'.
  - intros Hl. now rewrite IH.
Qed.

Lemma field_set_same (k : string) (v : value) (o : obj) :
  field k (set k v o) = v.
Proof. unfold field. now rewrite lookup_set_same. Qed.

Lemma field_set_other (k k' : string) (v : value) (o : obj) :
  k' <> k -> field k' (set k v o) = field k' o.
Proof. intros Hne. unfold field. now rewrite lookup_set_other. Qed.

Lemma field_record_lookup (k : string) (o o' : obj) :
  field k o = VObj o' -> lookup k o = Some (VObj o').
Proof. unfold field. destruct (lookup k o); [now intros ->|discriminate]. Qed.

Lemma field_array_lookup (k : string) (o : obj) (items : list value) :
  field k o = VArr items -> lookup k o = Some (VArr items).
Proof. unfold field. destruct (lookup k o); [now intros ->|discriminate]. Qed.

Lemma field_hasKey (k : string) (o : obj) (v : value) :
  field k o = v -> v <> VUndefined -> hasKey k o = true.
Proof.
  unfold field, hasKey. destruct (lookup k o); [reflexivity|].
  intros <- Hne. congruence.
Qed.

Lemma mapM_fixed {A : Type} (f : A -> result A) (xs : list A) :
  (forall x, In x xs -> f x = Ok x) -> mapM f xs = Ok xs.
Proof.
  induction xs as [|x rest IH]; intros Hall; simpl; [reflexivity|].
  rewrite (Hall x) by now left.
  rewrite IH; [reflexivity|]. intros y Hy. apply Hall. now right.
Qed.

Lemma Forall2_In_l {A B : Type} (R : A -> B -> Prop) (xs : list A) (ys : list B) (x : A) :
  Forall2 R xs ys -> In x xs -> exists y, In y ys /\ R x y.
Proof.
  induction 1 as [|x' y xs ys Hxy _ IH]; simpl; [contradiction|].
  intros [<-|Hin].
  - exists y. auto.
  - destruct (IH Hin) as (y' & Hy' & HR). exists y'. auto.
Qed.

(** ** Induction that reaches the children of a block *)

(** A property holds of every value when it holds of primitives, of arrays
    given their items, and of records given the items of every array held by
    a record-valued field: a block's children sit in such an array, under
    [config]. *)
Lemma value_block_ind (P : value -> Prop) :
  (forall p, P (VPrim p)) ->
  (forall items, Forall P items -> P (VArr items)) ->
  (forall fields,
      (forall k o k' items,
          field k fields = VObj o -> field k' o = VArr items -> Forall P items) ->
      P (VObj fields)) ->
  forall x, P x.
Proof.
  intros Hprim Harr Hobj.
  assert (Hall : forall x,
             P x
             /\ (forall items, x = VArr items -> Forall P items)
             /\ (forall o k items, x = VObj o -> field k o = VArr items ->
                                   Forall P items)).
  { induction x as [p|items IH|fields IH] using value_nested_ind.
    - repeat split; try discriminate. apply Hprim.
    - assert (Hitems : Forall P items).
      { eapply Forall_impl; [|exact IH]. intros y Hy. apply Hy. }
      repeat split; try discriminate; [now apply Harr|].
      now intros items' [= <-].
    - rewrite Forall_forall in IH. repeat split; try discriminate.
      + apply Hobj. intros k o k' items Hk Hk'.
        apply field_record_In in Hk. destruct (IH _ Hk) as (_ & _ & Hrec).
        exact (Hrec o k' items eq_refl Hk').
      + intros o k items [= <-] Hk. apply field_array_In in Hk.
        destruct (IH _ Hk) as (_ & Hitems & _). now apply Hitems. }
  intros x. apply Hall.
Qed.

(** ** The tree resolver, case by case *)

Section TreeCases.

Context {host : Host}.
Variable bucket : float.

(** The form case: the block comes back as it is, or with its [data]
    replaced by a definition and a document. *)
Lemma resolveBlockVariant_form (fields : obj) (y : value) :
  strictEq (field "type" fields) (PStr "form") = true ->
  resolveBlockVariant bucket (VObj fields) = Ok y ->
  y = VObj fields
  \/ exists data definition document,
       field "data" fields = VObj data /\
       y = VObj (set "data"
                   (VObj [("definition", definition); ("document", document)])
                   fields).
Proof.
  intros Hform. rewrite resolveBlockVariant_unfold.
  unfold resolveBlockStep. rewrite Hform.
  destruct (field "data" fields) as [p|items|data] eqn:Hdata;
    try (intros [= <-]; now left).
  destruct (negb (strictEq (field "multivariate" data) (PBool true)));
    [intros [= <-]; now left|].
  destruct (field "variants" data) as [p|variants|o];
    try (intros [= <-]; now left).
  destruct (Nat.eqb (List.length variants) 0); [intros [= <-]; now left|].
  destruct (mapM toConfig (filter isRecord variants)) as [configs|e];
    simpl; [|discriminate].
  destruct (selectVariant bucket configs) as [selectedId|e]; simpl; [|discriminate].
  destruct (find (isSelected selectedId) variants) as [[p|items|selected]|];
    intros [= <-]; try now left.
  right. exists data. eexists. eexists. split; reflexivity.
Qed.

(** A block resolved once has nothing left to resolve in its own [data]. *)
Lemma resolveBlockVariant_form_settled (fields : obj) (definition document : value) :
  strictEq (field "type" fields) (PStr "form") = true ->
  let settled :=
    VObj (set "data" (VObj [("definition", definition); ("document", document)])
              fields) in
  resolveBlockVariant bucket settled = Ok settled.
Proof.
  intros Hform settled. subst settled.
  rewrite resolveBlockVariant_unfold. unfold resolveBlockStep.
  rewrite field_set_other by discriminate. rewrite Hform.
  rewrite field_set_same. reflexivity.
Qed.

Lemma childKeyOf_set (config : obj) (childKey : string) (items : list value) :
  childKeyOf config = Some childKey ->
  childKeyOf (set childKey (VArr items) config) = Some childKey.
Proof.
  unfold childKeyOf.
  destruct (isArray (field "children" config)) eqn:Echildren.
  - intros [= <-]. now rewrite field_set_same.
  - destruct (isArray (field "child" config)); [|discriminate].
    intros [= <-]. rewrite field_set_other by discriminate.
    rewrite Echildren. now rewrite field_set_same.
Qed.

Lemma nestedChildren_rebuilt (fields config : obj) (childKey : string)
  (children resolved : list value) :
  nestedChildren fields = Some (config, childKey, children) ->
  nestedChildren (set "config" (VObj (set childKey (VArr resolved) config)) fields)
  = Some (set childKey (VArr resolved) config, childKey, resolved).
Proof.
  intros Hnested. destruct (nestedChildren_inv _ Hnested) as (_ & _ & Hkey).
  unfold nestedChildren. rewrite field_set_same.
  rewrite (childKeyOf_set _ resolved Hkey). now rewrite field_set_same.
Qed.

End TreeCases.

(** ** Trees without form blocks come back as they are *)

Lemma formFree_lookup (k : string) (o : obj) (v : value) :
  forallb (fun kv => formFree (snd kv)) o = true ->
  lookup k o = Some v -> formFree v = true.
Proof.
  intros Hall Hk. apply lookup_In in Hk.
  rewrite forallb_forall in Hall. exact (Hall _ Hk).
Qed.

Lemma formFree_field_record (k : string) (fields o : obj) :
  formFree (VObj fields) = true -> field k fields = VObj o ->
  formFree (VObj o) = true.
Proof.
  simpl. intros Hfree Hk. apply andb_true_iff in Hfree as [_ Hall].
  exact (formFree_lookup _ _ Hall (field_record_lookup _ _ Hk)).
Qed.

Lemma formFree_field_items (k : string) (fields : obj) (items : list value) (x : value) :
  formFree (VObj fields) = true -> field k fields = VArr items ->
  In x items -> formFree x = true.
Proof.
  simpl. intros Hfree Hk Hx. apply andb_true_iff in Hfree as [_ Hall].
  pose proof (formFree_lookup _ _ Hall (field_array_lookup _ _ Hk)) as Hitems.
  simpl in Hitems. rewrite forallb_forall in Hitems. exact (Hitems x Hx).
Qed.

Section FormFree.

Context {host : Host}.
Variable bucket : float.

Lemma resolveBlockVariant_formFree (x : value) :
  formFree x = true -> resolveBlockVariant bucket x = Ok x.
Proof.
  induction x as [p|items IH|fields IH] using value_block_ind; try reflexivity.
  intros Hfree.
  assert (Hlayout : strictEq (field "type" fields) (PStr "form") = false).
  { simpl in Hfree. apply andb_true_iff in Hfree as [Htype _].
    now apply negb_true_iff in Htype. }
  rewrite (resolveBlockVariant_layout bucket fields Hlayout).
  destruct (nestedChildren fields) as [[[config childKey] children]|] eqn:Hnested;
    [|reflexivity].
  destruct (nestedChildren_inv _ Hnested) as (Hconfig & Hchildren & _).
  pose proof (formFree_field_record _ _ Hfree Hconfig) as Hfree'.
  rewrite mapM_fixed.
  - simpl. rewrite (set_same _ _ (field_array_lookup _ _ Hchildren)).
    now rewrite (set_same _ _ (field_record_lookup _ _ Hconfig)).
  - intros child Hchild.
    pose proof (IH _ _ _ _ Hconfig Hchildren) as HP.
    rewrite Forall_forall in HP. apply (HP child Hchild).
    eapply formFree_field_items; eassumption.
Qed.

Lemma resolveSection_formFree (section : value) :
  formFree section = true -> resolveSection bucket section = Ok section.
Proof.
  destruct section as [p|items|fields]; try reflexivity.
  intros Hfree. unfold resolveSection.
  destruct (field "config" fields) as [p|items|config] eqn:Hconfig; try reflexivity.
  destruct (field "children" config) as [p|children|o] eqn:Hchildren; try reflexivity.
  pose proof (formFree_field_record _ _ Hfree Hconfig) as Hfree'.
  rewrite mapM_fixed.
  - simpl. rewrite (set_same _ _ (field_array_lookup _ _ Hchildren)).
    now rewrite (set_same _ _ (field_record_lookup _ _ Hconfig)).
  - intros child Hchild. apply resolveBlockVariant_formFree.
    eapply formFree_field_items; eassumption.
Qed.

(** X13. Sections that contain no record of type ["form"], at any depth,
    are returned as they are, key for key and value for value: rebuilding a
    section or a layout block around unchanged children gives it back. *)
Theorem resolveFormVariantsInSections_formFree (sections : value) :
  formFree sections = true ->
  resolveFormVariantsInSections sections bucket = Ok sections.
Proof.
  intros Hfree. unfold resolveFormVariantsInSections.
  destruct sections as [p|sectionList|o]; try reflexivity.
  rewrite mapM_fixed; [reflexivity|].
  intros section Hsection. apply resolveSection_formFree.
  simpl in Hfree. rewrite forallb_forall in Hfree. exact (Hfree _ Hsection).
Qed.

End FormFree.

Lemma resolveFormVariantsInSections_formFree_witness :
  let sections :=
    VArr [VObj [("type", VStr "section");
                ("config", VObj [("children",
                   VArr [VObj [("type", VStr "heading"); ("data", VObj [("text", VStr "Hello")])];
                         VObj [("type", VStr "grid-layout");
                               ("config", VObj [("gap", VNum 4);
                                                ("child", VArr [VObj [("type", VStr "spacer")]])])]])])]] in
  resolveFormVariantsInSections (host := exampleHost) sections 0 = Ok sections.
Proof.
  intros sections.
  apply (@resolveFormVariantsInSections_formFree exampleHost 0%float sections).
  reflexivity.
Defined.

(** ** Resolving twice *)

Section Idempotence.

Context {host : Host}.
Variable bucket : float.

Lemma mapM_settled (f : value -> result value) (xs ys : list value) :
  Forall (fun x => forall y, f x = Ok y -> f y = Ok y) xs ->
  mapM f xs = Ok ys -> mapM f ys = Ok ys.
Proof.
  intros Hall Hmap. apply mapM_fixed. intros y Hy.
  destruct (@Forall2_In_r _ _ _ _ _ y (mapM_Ok_Forall2 _ _ Hmap) Hy) as (x & Hx & Hxy).
  rewrite Forall_forall in Hall. exact (Hall x Hx y Hxy).
Qed.

Lemma resolveBlockVariant_idempotent (x y : value) :
  resolveBlockVariant bucket x = Ok y -> resolveBlockVariant bucket y = Ok y.
Proof.
  revert y. induction x as [p|items IH|fields IH] using value_block_ind;
    intros y Hrun; try (injection Hrun as <-; reflexivity).
  destruct (strictEq (field "type" fields) (PStr "form")) eqn:Htype.
  - destruct (resolveBlockVariant_form bucket fields Htype Hrun)
      as [-> | (data & definition & document & _ & ->)]; [exact Hrun|].
    now apply resolveBlockVariant_form_settled.
  - rewrite (resolveBlockVariant_layout bucket fields Htype) in Hrun.
    destruct (nestedChildren fields) as [[[config childKey] children]|] eqn:Hnested.
    2:{ injection Hrun as <-.
        now rewrite (resolveBlockVariant_layout bucket fields Htype), Hnested. }
    destruct (nestedChildren_inv _ Hnested) as (Hconfig & Hchildren & _).
    destruct (mapM (resolveBlockVariant bucket) children) as [resolved|e] eqn:Hmap;
      simpl in Hrun; [|discriminate].
    injection Hrun as <-.
    rewrite resolveBlockVariant_layout
      by (rewrite field_set_other by discriminate; exact Htype).
    rewrite (nestedChildren_rebuilt _ resolved Hnested).
    rewrite (@mapM_settled _ _ _ (IH _ _ _ _ Hconfig Hchildren) Hmap). simpl.
    now rewrite !set_set.
Qed.

Lemma resolveSection_idempotent (section section' : value) :
  resolveSection bucket section = Ok section' ->
  resolveSection bucket section' = Ok section'.
Proof.
  unfold resolveSection at 1.
  destruct section as [p|items|fields]; try (intros [= <-]; reflexivity).
  destruct (field "config" fields) as [p|items|config] eqn:Hconfig;
    try (intros [= <-]; simpl; now rewrite Hconfig).
  destruct (field "children" config) as [p|children|o] eqn:Hchildren;
    try (intros [= <-]; simpl; now rewrite Hconfig, Hchildren).
  destruct (mapM (resolveBlockVariant bucket) children) as [resolved|e] eqn:Hmap;
    simpl; [|discriminate].
  intros [= <-]. unfold resolveSection.
  rewrite !field_set_same.
  assert (Hall : Forall (fun x => forall y, resolveBlockVariant bucket x = Ok y ->
                                            resolveBlockVariant bucket y = Ok y)
                        children).
  { apply Forall_forall. intros x _. apply resolveBlockVariant_idempotent. }
  rewrite (@mapM_settled _ _ _ Hall Hmap). simpl. now rewrite !set_set.
Qed.

(** X14. Resolving is idempotent for a given bucket: when
    [resolveFormVariantsInSections] returns a tree, resolving that tree again
    with the same bucket returns it unchanged. *)
Theorem resolveFormVariantsInSections_idempotent (sections resolved : value) :
  resolveFormVariantsInSections sections bucket = Ok resolved ->
  resolveFormVariantsInSections resolved bucket = Ok resolved.
Proof.
  unfold resolveFormVariantsInSections at 1.
  destruct sections as [p|sectionList|o]; try (intros [= <-]; reflexivity).
  destruct (mapM (resolveSection bucket) sectionList) as [resolvedList|e] eqn:Hmap;
    simpl; [|discriminate].
  intros [= <-]. unfold resolveFormVariantsInSections.
  assert (Hall : Forall (fun x => forall y, resolveSection bucket x = Ok y ->
                                            resolveSection bucket y = Ok y)
                        sectionList).
  { apply Forall_forall. intros x _. apply resolveSection_idempotent. }
  now rewrite (@mapM_settled _ _ _ Hall Hmap).
Qed.

End Idempotence.

Lemma resolveFormVariantsInSections_idempotent_witness :
  let variant (name : string) (document : value) :=
    VObj [("id", VStr name); ("weight", VNum 50); ("document", document)] in
  let form := VObj [("type", VStr "form");
                    ("data", VObj [("definition", VObj []); ("multivariate", VBool true);
                                   ("variants", VArr [variant "a" (VStr "A");
                                                      variant "b" (VStr "B")])])] in
  let settled := VObj [("type", VStr "form");
                       ("data", VObj [("definition", VObj []); ("document", VStr "B")])] in
  let around (block : value) :=
    VArr [VObj [("type", VStr "section"); ("config", VObj [("children", VArr [block])])]] in
  resolveFormVariantsInSections (host := exampleHost) (around form) 0.75
  = Ok (around settled)
  /\ resolveFormVariantsInSections (host := exampleHost) (around settled) 0.75
     = Ok (around settled).
Proof.
  intros variant form settled around.
  assert (Hrun : resolveFormVariantsInSections (host := exampleHost) (around form) 0.75
                 = Ok (around settled)) by reflexivity.
  split; [exact Hrun|].
  exact (@resolveFormVariantsInSections_idempotent exampleHost 0.75%float _ _ Hrun).
Defined.

(** ** What resolution keeps of a block and of a section *)

Section Shape.

Context {host : Host}.
Variable bucket : float.

(** X15. A resolved block is a record with the same key names in the same
    order as the block; of its values only [data] can differ for a form
    block, and only [config] for any other block.  A block that is not a
    record is returned as it is. *)
Theorem resolveBlockVariant_keeps_keys (block resolved : value) :
  resolveBlockVariant bucket block = Ok resolved ->
  (isRecord block = false -> resolved = block)
  /\ forall fields, block = VObj fields ->
       exists fields',
         resolved = VObj fields' /\ keys fields' = keys fields /\
         forall k,
           k <> (if strictEq (field "type" fields) (PStr "form")
                 then "data" else "config") ->
           lookup k fields' = lookup k fields.
Proof.
  intros Hrun. split.
  - destruct block as [p|items|fields]; try discriminate;
      intros _; now injection Hrun as <-.
  - intros fields ->.
    destruct (strictEq (field "type" fields) (PStr "form")) eqn:Htype.
    + destruct (resolveBlockVariant_form bucket fields Htype Hrun)
        as [-> | (data & definition & document & Hdata & ->)].
      * exists fields. auto.
      * eexists. split; [reflexivity|]. split.
        -- apply keys_set. apply (field_hasKey _ _ Hdata). discriminate.
        -- intros k Hk. now apply lookup_set_other.
    + rewrite (resolveBlockVariant_layout bucket fields Htype) in Hrun.
      destruct (nestedChildren fields) as [[[config childKey] children]|] eqn:Hnested.
      2:{ injection Hrun as <-. exists fields. auto. }
      destruct (nestedChildren_inv _ Hnested) as (Hconfig & _ & _).
      destruct (mapM (resolveBlockVariant bucket) children) as [resolvedChildren|e];
        simpl in Hrun; [|discriminate].
      injection Hrun as <-. eexists. split; [reflexivity|]. split.
      * apply keys_set. apply (field_hasKey _ _ Hconfig). discriminate.
      * intros k Hk. now apply lookup_set_other.
Qed.

Lemma resolveSection_shape (section resolved : value) :
  resolveSection bucket section = Ok resolved ->
  (isRecord section = false -> resolved = section)
  /\ forall fields, section = VObj fields ->
       exists fields',
         resolved = VObj fields' /\ keys fields' = keys fields /\
         forall k, k <> "config" -> lookup k fields' = lookup k fields.
Proof.
  intros Hrun. split.
  - destruct section as [p|items|fields]; try discriminate;
      intros _; now injection Hrun as <-.
  - intros fields ->. unfold resolveSection in Hrun.
    destruct (field "config" fields) as [p|items|config] eqn:Hconfig;
      try (injection Hrun as <-; exists fields; auto).
    destruct (field "children" config) as [p|children|o];
      try (injection Hrun as <-; exists fields; auto).
    destruct (mapM (resolveBlockVariant bucket) children) as [resolvedChildren|e];
      simpl in Hrun; [|discriminate].
    injection Hrun as <-. eexists. split; [reflexivity|]. split.
    + apply keys_set. apply (field_hasKey _ _ Hconfig). discriminate.
    + intros k Hk. now apply lookup_set_other.
Qed.

(** X17. [resolveFormVariantsInSections] returns a value that is not an
    array as it is; for an array it returns an array of the same length in
    which every entry that is not a record is unchanged and every section
    record keeps its key names, in order, and all its values but [config]. *)
Theorem resolveFormVariantsInSections_shape (sections resolved : value) :
  resolveFormVariantsInSections sections bucket = Ok resolved ->
  (isArray sections = false -> resolved = sections)
  /\ forall sectionList, sections = VArr sectionList ->
       exists resolvedList,
         resolved = VArr resolvedList /\
         List.length resolvedList = List.length sectionList /\
         Forall2 (fun section section' =>
                    (isRecord section = false -> section' = section)
                    /\ forall fields, section = VObj fields ->
                         exists fields',
                           section' = VObj fields' /\ keys fields' = keys fields /\
                           forall k, k <> "config" ->
                                     lookup k fields' = lookup k fields)
                 sectionList resolvedList.
Proof.
  intros Hrun. split.
  - destruct sections as [p|sectionList|o]; try discriminate;
      intros _; now injection Hrun as <-.
  - intros sectionList ->. unfold resolveFormVariantsInSections in Hrun.
    destruct (mapM (resolveSection bucket) sectionList) as [resolvedList|e] eqn:Hmap;
      simpl in Hrun; [|discriminate].
    injection Hrun as <-. exists resolvedList. split; [reflexivity|].
    pose proof (mapM_Ok_Forall2 _ _ Hmap) as Hall.
    split; [symmetry; exact (Forall2_length Hall)|].
    eapply Forall2_impl; [|exact Hall].
    intros section section' Hsection. now apply resolveSection_shape.
Qed.

(** X16. A multivariate form block whose variants are well formed (a
    non-empty array of records whose [id] is a string and whose [weight] is
    a number), under a host whose [String] and [Number] return strings and
    numbers unchanged, is always resolved: its [data] becomes the shared
    definition and the document of a variant whose id is the id the selector
    chose. *)
Theorem resolveBlockVariant_form_well_formed (fields data : obj)
  (variants : list value) :
  (forall s, js_String (VStr s) = Ok s) ->
  (forall n, js_Number (VNum n) = Ok n) ->
  strictEq (field "type" fields) (PStr "form") = true ->
  field "data" fields = VObj data ->
  strictEq (field "multivariate" data) (PBool true) = true ->
  field "variants" data = VArr variants ->
  variants <> [] ->
  (forall v, In v variants ->
     exists o s n, v = VObj o /\ field "id" o = VStr s /\ field "weight" o = VNum n) ->
  exists variantConfigs selectedId o,
    mapM toConfig (filter isRecord variants) = Ok variantConfigs /\
    selectVariant bucket variantConfigs = Ok selectedId /\
    find (isSelected selectedId) variants = Some (VObj o) /\
    In (VObj o) variants /\ field "id" o = VStr selectedId /\
    resolveBlockVariant bucket (VObj fields)
    = Ok (VObj (set "data"
                  (VObj [("definition", field "definition" data);
                         ("document", field "document" o)])
                  fields)).
Proof.
  intros Hstring Hnumber Hform Hdata Hmulti Hvariants Hne Hformed.
  assert (Hfilter : filter isRecord variants = variants).
  { apply forallb_filter_id. apply forallb_forall. intros v Hv.
    destruct (Hformed v Hv) as (o & s & n & -> & _ & _). reflexivity. }
  destruct (mapM_total toConfig variants) as (configs & Hconfigs & Hlen).
  { intros v Hv. destruct (Hformed v Hv) as (o & s & n & -> & Hid & Hweight).
    eexists. exact (toConfig_well_formed o Hstring Hnumber Hid Hweight). }
  assert (Hnonempty : configs <> []).
  { destruct configs; [|discriminate]. destruct variants; [congruence|discriminate]. }
  destruct (selectVariant_member bucket Hnonempty) as (c & Hc & Hsel).
  destruct (@Forall2_In_r _ _ _ _ _ c (mapM_Ok_Forall2 _ _ Hconfigs) Hc)
    as (v & Hv & Hvc).
  destruct (Hformed v Hv) as (o & s & n & -> & Hid & Hweight).
  rewrite (toConfig_well_formed o Hstring Hnumber Hid Hweight) in Hvc.
  injection Hvc as <-. simpl in Hsel.
  destruct (find (isSelected s) variants) as [found|] eqn:Hfind.
  2:{ pose proof (find_none _ _ Hfind _ Hv) as Hno. simpl in Hno.
      rewrite Hid in Hno. simpl in Hno. now rewrite String.eqb_refl in Hno. }
  destruct (find_some _ _ Hfind) as [Hin Hyes].
  destruct (Hformed found Hin) as (o' & s' & n' & -> & Hid' & _).
  simpl in Hyes. rewrite Hid' in Hyes. simpl in Hyes.
  apply String.eqb_eq in Hyes. subst s'.
  exists configs, s, o'. rewrite Hfilter.
  repeat split; auto.
  assert (Hlength : Nat.eqb (List.length variants) 0 = false)
    by (destruct variants; [congruence|reflexivity]).
  rewrite resolveBlockVariant_unfold. unfold resolveBlockStep.
  rewrite Hform, Hdata, Hmulti, Hvariants. cbn [negb].
  rewrite Hlength, Hfilter, Hconfigs. cbn [bind].
  rewrite Hsel. cbn [bind]. now rewrite Hfind.
Qed.

End Shape.

Lemma resolveBlockVariant_keeps_keys_witness :
  let block := [("id", VStr "f1"); ("type", VStr "form");
                ("data", VObj [("definition", VObj []); ("multivariate", VBool true);
                               ("variants",
                                VArr [VObj [("id", VStr "v"); ("weight", VNum 100);
                                            ("document", VStr "D")]])]);
                ("style", VStr "wide")] in
  exists fields',
    resolveBlockVariant (host := exampleHost) 0 (VObj block) = Ok (VObj fields')
    /\ keys fields' = ["id"; "type"; "data"; "style"]
    /\ lookup "style" fields' = Some (VStr "wide").
Proof.
  intros block.
  destruct (resolveBlockVariant (host := exampleHost) 0 (VObj block))
    as [resolved|e] eqn:Hrun; [|discriminate Hrun].
  destruct (@resolveBlockVariant_keeps_keys exampleHost 0%float _ _ Hrun)
    as [_ Hkeys].
  destruct (Hkeys block eq_refl) as (fields' & -> & Hnames & Hvalues).
  exists fields'. split; [reflexivity|]. split; [exact Hnames|].
  rewrite (Hvalues "style"); [reflexivity|discriminate].
Defined.

Lemma resolveFormVariantsInSections_shape_witness :
  let sections :=
    VArr [VStr "string"; VNum 123; VNull;
          VObj [("type", VStr "section"); ("config", VObj [("children", VArr [])])]] in
  exists resolvedList,
    resolveFormVariantsInSections (host := exampleHost) sections 0 = Ok (VArr resolvedList)
    /\ List.length resolvedList = 4.
Proof.
  intros sections.
  destruct (resolveFormVariantsInSections (host := exampleHost) sections 0)
    as [resolved|e] eqn:Hrun; [|discriminate Hrun].
  destruct (@resolveFormVariantsInSections_shape exampleHost 0%float _ _ Hrun)
    as [_ Hshape].
  destruct (Hshape _ eq_refl) as (resolvedList & -> & Hlength & _).
  exists resolvedList. split; [reflexivity|exact Hlength].
Defined.

Lemma resolveBlockVariant_form_well_formed_witness :
  let a := [("id", VStr "a"); ("weight", VNum 50); ("document", VStr "A")] in
  let b := [("id", VStr "b"); ("weight", VNum 50); ("document", VStr "B")] in
  let data := [("definition", VObj []); ("multivariate", VBool true);
               ("variants", VArr [VObj a; VObj b])] in
  let block := [("type", VStr "form"); ("data", VObj data)] in
  exists variantConfigs selectedId o,
    mapM (toConfig (host := exampleHost)) (filter isRecord [VObj a; VObj b])
    = Ok variantConfigs /\
    selectVariant 0.75 variantConfigs = Ok selectedId /\
    find (isSelected selectedId) [VObj a; VObj b] = Some (VObj o) /\
    In (VObj o) [VObj a; VObj b] /\ field "id" o = VStr selectedId /\
    resolveBlockVariant (host := exampleHost) 0.75 (VObj block)
    = Ok (VObj (set "data"
                  (VObj [("definition", field "definition" data);
                         ("document", field "document" o)])
                  block)).
Proof.
  intros a b data block.
  apply (@resolveBlockVariant_form_well_formed exampleHost 0.75%float block data);
    [reflexivity|reflexivity|reflexivity|reflexivity|reflexivity|reflexivity
    |discriminate|].
  intros v [<-|[<-|[]]]; [exists a, "a", 50%float|exists b, "b", 50%float];
    repeat split; reflexivity.
Defined.
